(** * crawler_ai: the scrape supervisor of [app.py]

    A shallow embedding of [src/crawler_ai/app.py]: the download link
    ([download_button]), the directory watcher ([FileHandler]), the
    supervising loop ([run_scraper]) and the part of [main] that starts a
    run and reports how it ended.

    Conventions of the embedding.
    - A Python [str] is represented by the bytes of its UTF-8 encoding, as
      a [string].  The operations of [app.py] on strings ([replace],
      [split], [startswith], [endswith], [+], comparison by [sorted]) give
      the same result on that representation as on code points, because
      every pattern they are applied with is ASCII and the byte order of
      UTF-8 is the code point order.  [str.encode()] and [bytes.decode()]
      are then the passage between [string] and a list of byte values.
    - The outside world (file system, watchdog observer, worker process,
      Streamlit widgets) is a script of answers, [world], consumed by the
      code; what the code does to the outside is a trace of [call]s and the
      state of the objects it holds.
    - Paths follow [posixpath]. *)

From Stdlib Require Import String Ascii List Bool Arith ZArith NArith Lia.
From Stdlib Require Import Permutation Sorted Orders Mergesort OrderedTypeEx.
Import ListNotations.

Open Scope string_scope.

(** * Python string operations used by [app.py] *)

Module Str.

(** ["\n"] and the double quote, which a literal cannot hold. *)
Definition nl : string := String "010" "".
Definition dq : string := String "034" "".

(** [s.startswith(p)] *)
Definition startswith (s p : string) : bool := String.prefix p s.

(** [s.endswith(p)] *)
Definition endswith (s p : string) : bool :=
  (String.length p <=? String.length s)%nat
  && (substring (String.length s - String.length p) (String.length p) s =? p).

(** [s.replace(old, new)] for a non-empty [old] (the only use in
    [app.py]): occurrences are found left to right and do not overlap.
    [skip] counts the characters of a found occurrence still to drop. *)
Fixpoint replace_from (old new s : string) (skip : nat) : string :=
  match s with
  | EmptyString => EmptyString
  | String c s' =>
      match skip with
      | S k => replace_from old new s' k
      | O =>
          if String.prefix old s
          then new ++ replace_from old new s' (String.length old - 1)
          else String c (replace_from old new s' 0)
      end
  end.

Definition replace (s old new : string) : string := replace_from old new s 0.

(** [s.split(sep)] for a one-character separator. *)
Fixpoint split (s : string) (sep : ascii) : list string :=
  match s with
  | EmptyString => [EmptyString]
  | String c s' =>
      if Ascii.eqb c sep then EmptyString :: split s' sep
      else match split s' sep with
           | w :: ws => String c w :: ws
           | [] => [String c EmptyString]
           end
  end.

(** The characters of a string. *)
Definition chars (s : string) : list ascii := list_ascii_of_string s.

End Str.

(** ** [posixpath] *)

Module Path.

(** [os.path.join(a, b)] *)
Definition join (a b : string) : string :=
  if Str.startswith b "/" then b
  else if (a =? "") || Str.endswith a "/" then a ++ b
  else a ++ "/" ++ b.

(** [os.path.basename(p)]: what follows the last ['/']. *)
Definition basename (p : string) : string := last (Str.split p "/") "".

End Path.

(** * The crawl target (lines 45-46 and 160) *)

(** [url.startswith(('http://', 'https://')) if url else False] *)
Definition url_valid (url : string) : bool :=
  if url =? "" then false
  else Str.startswith url "http://" || Str.startswith url "https://".

(** [url.replace('https://', '').replace('http://', '')] *)
Definition strip_schemes (url : string) : string :=
  Str.replace (Str.replace url "https://" "") "http://" "".

(** [url.replace('https://', '').replace('http://', '').split('/')[0]];
    [split] never returns an empty list, so the index is in range. *)
Definition domain (url : string) : string :=
  hd "" (Str.split (strip_schemes url) "/").


(** * Python values shared by the components *)

(** An instance of [Exception]; [str e] is its message. *)
Inductive exn : Type := Exception (msg : string).

Definition str (e : exn) : string := let 'Exception msg := e in msg.

(** A [dict] with [str] keys and values: the items in insertion order.
    Assigning to a key that is present keeps its place. *)
Module Dict.

Definition t : Type := list (string * string).

Definition empty : t := [].

Fixpoint get (d : t) (k : string) : option string :=
  match d with
  | [] => None
  | (k', v) :: d' => if k' =? k then Some v else get d' k
  end.

(** [d[k] = v] *)
Fixpoint set (d : t) (k v : string) : t :=
  match d with
  | [] => [(k, v)]
  | (k', v') :: d' => if k' =? k then (k, v) :: d' else (k', v') :: set d' k v
  end.

(** [d.items()] *)
Definition items (d : t) : list (string * string) := d.

(** Truth value of a dict: it is not empty. *)
Definition truthy (d : t) : bool :=
  match d with [] => false | _ :: _ => true end.

(** No key occurs twice. *)
Definition wf (d : t) : Prop := NoDup (map fst d).

(** Two dicts hold the same value under every key. *)
Definition same (d1 d2 : t) : Prop := forall k, get d1 k = get d2 k.

End Dict.

(** ** Effects: state, exceptions, and a loop that has not finished *)

Section Effects.

Context {S : Type}.

Inductive outcome (A : Type) : Type :=
| Ok (a : A)          (* normal completion *)
| Raise (e : exn)     (* an exception propagates *)
| Hang.               (* still running when the script ends *)

Definition M (A : Type) : Type := S -> outcome A * S.

Definition ret {A} (a : A) : M A := fun s => (Ok A a, s).

Definition raise {A} (e : exn) : M A := fun s => (Raise A e, s).

Definition hang {A} : M A := fun s => (Hang A, s).

Definition bind {A B} (m : M A) (k : A -> M B) : M B :=
  fun s =>
    match m s with
    | (Ok _ a, s') => k a s'
    | (Raise _ e, s') => (Raise B e, s')
    | (Hang _, s') => (Hang B, s')
    end.

(** [try: body  except Exception as e: handler e] *)
Definition try_except {A} (body : M A) (handler : exn -> M A) : M A :=
  fun s =>
    match body s with
    | (Raise _ e, s') => handler e s'
    | r => r
    end.

Definition modify (f : S -> S) : M unit := fun s => (Ok unit tt, f s).

End Effects.

Arguments Ok {A} a.
Arguments Raise {A} e.
Arguments Hang {A}.
Arguments M S A : clear implicits.

Declare Scope eff_scope.
Delimit Scope eff_scope with eff.
Notation "x <- m ;; k" := (bind m (fun x => k))
  (at level 61, m at next level, right associativity) : eff_scope.
Notation "m ;; k" := (bind m (fun _ => k))
  (at level 61, right associativity) : eff_scope.

(** * DirectoryWatcher: [FileHandler] (lines 21-33) *)

(** An event of watchdog: its type, whether it concerns a directory, and
    the path it concerns. *)
Inductive event_type : Type :=
| EVENT_TYPE_CREATED | EVENT_TYPE_MODIFIED | EVENT_TYPE_DELETED | EVENT_TYPE_MOVED.

Record event : Type := {
  ev_type : event_type;
  is_directory : bool;
  src_path : string
}.

(** An event as the observer thread hands it to the handler, with what
    [open(event.src_path, 'r', encoding='utf-8')] and [f.read()] yield at
    that moment: the text of the file, or the exception raised. *)
Record delivery : Type := {
  dl_event : event;
  dl_read : exn + string
}.

Record FileHandler : Type := {
  output_dir : string;
  files_content : Dict.t
}.

(** The state the observer thread works on: the handler object and what
    has been printed. *)
Record watcher : Type := {
  wt_self : FileHandler;
  wt_stdout : list string
}.

(** [FileHandler.__init__] *)
Definition FileHandler_init (output_dir : string) : FileHandler :=
  {| output_dir := output_dir; files_content := Dict.empty |}.

(** [with open(path, 'r', encoding='utf-8') as f: content = f.read()] *)
Definition open_read (read : exn + string) : M watcher string :=
  match read with
  | inl e => raise e
  | inr content => ret content
  end.

(** [self.files_content[key] = content] *)
Definition store (key content : string) : M watcher unit :=
  modify (fun w =>
    {| wt_self := {| output_dir := output_dir (wt_self w);
                     files_content := Dict.set (files_content (wt_self w)) key content |};
       wt_stdout := wt_stdout w |}).

(** [print(line)] *)
Definition print (line : string) : M watcher unit :=
  modify (fun w => {| wt_self := wt_self w; wt_stdout := wt_stdout w ++ [line] |}).

(** The test of line 27:
    [not event.is_directory and event.src_path.endswith('.txt')] *)
Definition qualifies (event : event) : bool :=
  negb (is_directory event) && Str.endswith (src_path event) ".txt".

(** [FileHandler.on_modified] *)
Definition on_modified (d : delivery) : M watcher unit :=
  let event := dl_event d in
  if qualifies event then
    try_except
      (content <- open_read (dl_read d) ;;
       store (Path.basename (src_path event)) content)%eff
      (fun e => print ("Error reading file: " ++ str e))
  else ret tt.

(** [FileSystemEventHandler.dispatch] of watchdog, inherited: the event goes
    to the method named after its type.  [FileHandler] overrides
    [on_modified] only; [on_created], [on_deleted], [on_moved] and
    [on_any_event] are the base class's, which do nothing. *)
Definition dispatch (d : delivery) : M watcher unit :=
  match ev_type (dl_event d) with
  | EVENT_TYPE_MODIFIED => on_modified d
  | EVENT_TYPE_CREATED | EVENT_TYPE_DELETED | EVENT_TYPE_MOVED => ret tt
  end.

(** The observer thread handing over a sequence of events.  An exception
    leaving a handler would end the thread: the remaining events are not
    delivered. *)
Fixpoint deliver (ds : list delivery) : M watcher unit :=
  match ds with
  | [] => ret tt
  | d :: ds' => (dispatch d ;; deliver ds')%eff
  end.

(** The handler after the events [ds], starting from [w]. *)
Definition after_events (ds : list delivery) (w : watcher) : watcher :=
  snd (deliver ds w).

(** * ContentAggregator: the bundle (lines 75-77) and the download link *)

(** The order [sorted] puts on the items of a dict: tuples compare by their
    first component, then by their second. *)
Module ItemOrder <: TotalLeBool.

Definition t : Type := (string * string)%type.

Definition leb (x y : t) : bool :=
  match String.compare (fst x) (fst y) with
  | Lt => true
  | Eq => String.leb (snd x) (snd y)
  | Gt => false
  end.

Theorem leb_total : forall x y, leb x y = true \/ leb y x = true.
Proof.
  intros [k1 v1] [k2 v2]; unfold leb; simpl.
  rewrite (String.compare_antisym k2 k1).
  destruct (String.compare k1 k2); simpl; auto.
  apply String.leb_total.
Qed.

End ItemOrder.

Module ItemSort := Sort ItemOrder.

(** [sorted(items)] *)
Definition sorted (items : list (string * string)) : list (string * string) :=
  ItemSort.sort items.

(** One section of the bundle: the f-string of line 77. *)
Definition section (item : string * string) : string :=
  let '(filename, content) := item in
  "## 📄 " ++ filename ++ Str.nl ++ "```" ++ Str.nl ++ content ++ Str.nl
  ++ "```" ++ Str.nl ++ Str.nl.

(** Lines 75-77: [combined_content] after the [for] loop. *)
Definition render (files_content : Dict.t) : string :=
  fold_left (fun combined_content item => combined_content ++ section item)
            (sorted (Dict.items files_content)) "".

(** ** Base64 (RFC 4648, section 4), on byte values *)

Module Base64.

Local Open Scope N_scope.

Definition alphabet : string :=
  "ABCDEFGHIJKLMNOPQRSTUVWXYZabcdefghijklmnopqrstuvwxyz0123456789+/".

Definition pad : N := 61.  (* '=' *)

(** The character, as a byte, that stands for the 6-bit value [v]. *)
Definition enc6 (v : N) : N :=
  match String.get (N.to_nat v) alphabet with
  | Some c => N_of_ascii c
  | None => pad
  end.

(** The 6-bit value a character stands for. *)
Definition dec6 (b : N) : option N :=
  if (65 <=? b) && (b <=? 90) then Some (b - 65)            (* A-Z *)
  else if (97 <=? b) && (b <=? 122) then Some (b - 71)      (* a-z *)
  else if (48 <=? b) && (b <=? 57) then Some (b + 4)        (* 0-9 *)
  else if b =? 43 then Some 62                              (* + *)
  else if b =? 47 then Some 63                              (* / *)
  else None.

(** The four 6-bit values of a group of three bytes. *)
Definition sextet1 (a : N) : N := N.shiftr a 2.
Definition sextet2 (a b : N) : N := N.lor (N.shiftl (N.land a 3) 4) (N.shiftr b 4).
Definition sextet3 (b c : N) : N := N.lor (N.shiftl (N.land b 15) 2) (N.shiftr c 6).
Definition sextet4 (c : N) : N := N.land c 63.

(** [base64.b64encode] *)
Fixpoint b64encode (bs : list N) : list N :=
  match bs with
  | [] => []
  | [a] => [enc6 (sextet1 a); enc6 (sextet2 a 0); pad; pad]
  | [a; b] => [enc6 (sextet1 a); enc6 (sextet2 a b); enc6 (sextet3 b 0); pad]
  | a :: b :: c :: rest =>
      enc6 (sextet1 a) :: enc6 (sextet2 a b) :: enc6 (sextet3 b c)
      :: enc6 (sextet4 c) :: b64encode rest
  end.

(** The three bytes of a group of four 6-bit values. *)
Definition octet1 (s1 s2 : N) : N := N.land (N.lor (N.shiftl s1 2) (N.shiftr s2 4)) 255.
Definition octet2 (s2 s3 : N) : N := N.land (N.lor (N.shiftl s2 4) (N.shiftr s3 2)) 255.
Definition octet3 (s3 s4 : N) : N := N.land (N.lor (N.shiftl s3 6) s4) 255.

(** Decoding, as the reader of a [data:] URL does it: groups of four
    characters, padding only in the last group. *)
Fixpoint b64decode (cs : list N) : option (list N) :=
  match cs with
  | [] => Some []
  | c1 :: c2 :: c3 :: c4 :: rest =>
      match dec6 c1, dec6 c2 with
      | Some s1, Some s2 =>
          if (c3 =? pad) && (c4 =? pad) then
            match rest with [] => Some [octet1 s1 s2] | _ => None end
          else
            match dec6 c3 with
            | Some s3 =>
                if c4 =? pad then
                  match rest with
                  | [] => Some [octet1 s1 s2; octet2 s2 s3]
                  | _ => None
                  end
                else
                  match dec6 c4, b64decode rest with
                  | Some s4, Some bs =>
                      Some (octet1 s1 s2 :: octet2 s2 s3 :: octet3 s3 s4 :: bs)
                  | _, _ => None
                  end
            | None => None
            end
      | _, _ => None
      end
  | _ => None
  end.

End Base64.

(** [str.encode()]: the bytes of the text. *)
Definition encode (s : string) : list N := map N_of_ascii (Str.chars s).

(** [bytes.decode()]: the text of the bytes. *)
Definition decode (bs : list N) : string := string_of_list_ascii (map ascii_of_N bs).

(** [download_button] (lines 15-19) *)
Definition download_button (content filename button_text : string) : string :=
  let b64 := decode (Base64.b64encode (encode content)) in
  let href :=
    "<a href=" ++ Str.dq ++ "data:text/plain;base64," ++ b64 ++ Str.dq
    ++ " download=" ++ Str.dq ++ filename ++ Str.dq
    ++ " class=" ++ Str.dq ++ "download-button" ++ Str.dq ++ ">"
    ++ button_text ++ "</a>" in
  href.

(** What a reader of the link takes as its payload: the text between
    [base64,] and the quote that closes the [href] attribute. *)
Fixpoint up_to_quote (s : string) : string :=
  match s with
  | EmptyString => EmptyString
  | String c s' => if Ascii.eqb c "034" then EmptyString else String c (up_to_quote s')
  end.

Definition payload_of (href : string) : string :=
  let intro := "<a href=" ++ Str.dq ++ "data:text/plain;base64," in
  up_to_quote (substring (String.length intro)
                         (String.length href - String.length intro) href).

(** The text a downloaded link holds, if its payload is well formed. *)
Definition downloaded (href : string) : option string :=
  option_map decode (Base64.b64decode (encode (payload_of href))).

(** * ScrapeOrchestrator: [run_scraper] (lines 41-98), [main] (lines 177-186) *)

(** Calls that reach the outside, in the order they are made. *)
Inductive call : Type :=
| env_write (text : string)            (* save_env_vars: the text of .env *)
| files_empty                          (* files_container.empty() *)
| status_write (text : string)         (* status_container.write *)
| placeholder_markdown (body : string) (* file_placeholder.markdown *)
| files_markdown (body : string)       (* files_container.markdown(.., unsafe_allow_html=True) *)
| st_error (body : string)             (* st.error *)
| st_success (body : string).          (* st.success *)

(** The observer thread of watchdog. *)
Inductive observer_state : Type :=
| ObserverCreated     (* Observer() *)
| ObserverRunning     (* start() returned: the thread delivers events *)
| ObserverStopped     (* stop() was called *)
| ObserverJoined.     (* join() returned: the thread has ended *)

(** A [subprocess.Popen] object, with what lies behind it: the status of
    the child as the system knows it, and the lines of its standard error
    pipe that nobody has read. *)
Record Popen : Type := {
  args : list string;
  returncode : option Z;
  child_status : option Z;
  stderr_unread : list string
}.

(** What the outside does during one iteration of the loop of line 66:
    while the loop waits in [readline], the observer thread dispatches
    [tk_events], the worker writes [tk_stderr] to its standard error, and
    its status becomes [tk_status] ([None]: still running); [readline]
    then yields [tk_readline] (the empty text: end of file). *)
Record tick : Type := {
  tk_events : list delivery;
  tk_stderr : list string;
  tk_status : option Z;
  tk_readline : exn + string
}.

(** The answers of the outside to one run; [None] is success. *)
Record world : Type := {
  w_makedirs : option exn;   (* os.makedirs(output_dir, exist_ok=True) *)
  w_schedule : option exn;   (* observer.schedule(..) *)
  w_start : option exn;      (* observer.start() *)
  w_spawn : option exn;      (* subprocess.Popen(..) *)
  w_ticks : list tick
}.

(** The objects of one run and the calls made so far. *)
Record state : Type := {
  event_handler : option FileHandler;
  observer : option observer_state;
  process : option Popen;
  stdout : list string;
  calls : list call
}.

Definition initial : state :=
  {| event_handler := None; observer := None; process := None;
     stdout := []; calls := [] |}.

Definition set_event_handler (h : option FileHandler) (st : state) : state :=
  {| event_handler := h; observer := observer st; process := process st;
     stdout := stdout st; calls := calls st |}.

Definition set_observer (o : option observer_state) (st : state) : state :=
  {| event_handler := event_handler st; observer := o; process := process st;
     stdout := stdout st; calls := calls st |}.

Definition set_process (p : option Popen) (st : state) : state :=
  {| event_handler := event_handler st; observer := observer st; process := p;
     stdout := stdout st; calls := calls st |}.

Definition set_stdout (out : list string) (st : state) : state :=
  {| event_handler := event_handler st; observer := observer st;
     process := process st; stdout := out; calls := calls st |}.

Definition emit (c : call) : M state unit :=
  modify (fun st =>
    {| event_handler := event_handler st; observer := observer st;
       process := process st; stdout := stdout st; calls := calls st ++ [c] |}).

(** Reading a local variable that was never assigned. *)
Definition unbound {A} (name : string) : M state A :=
  raise (Exception ("local variable '" ++ name ++ "' referenced before assignment")).

Definition fallible (answer : option exn) : M state unit :=
  match answer with
  | Some e => raise e
  | None => ret tt
  end.

(** The observer thread: it dispatches only while it runs, to the handler
    it was scheduled with. *)
Definition observer_thread (ds : list delivery) (st : state) : state :=
  match observer st, event_handler st with
  | Some ObserverRunning, Some h =>
      let w := after_events ds {| wt_self := h; wt_stdout := stdout st |} in
      set_stdout (wt_stdout w) (set_event_handler (Some (wt_self w)) st)
  | _, _ => st
  end.

(** The worker: it writes to its standard error and may end. *)
Definition worker (t : tick) (st : state) : state :=
  match process st with
  | Some p =>
      set_process (Some {| args := args p; returncode := returncode p;
                           child_status := tk_status t;
                           stderr_unread := stderr_unread p ++ tk_stderr t |}) st
  | None => st
  end.

(** [process.stdout.readline()], during which the outside moves on. *)
Definition readline (t : tick) : M state string :=
  (modify (fun st => worker t (observer_thread (tk_events t) st)) ;;
   match tk_readline t with
   | inl e => raise e
   | inr output => ret output
   end)%eff.

(** [process.poll()]: the return code once known, else what the system
    reports now, which is then stored. *)
Definition poll : M state (option Z) :=
  fun st =>
    match process st with
    | Some p =>
        match returncode p with
        | Some c => (Ok (Some c), st)
        | None =>
            (Ok (child_status p),
             set_process (Some {| args := args p; returncode := child_status p;
                                  child_status := child_status p;
                                  stderr_unread := stderr_unread p |}) st)
        end
    | None => unbound "process" st
    end.

Definition is_not_None {A} (x : option A) : bool :=
  match x with Some _ => true | None => false end.

Section Orchestrator.

(** [str.strip()], of the Python library. *)
Variable strip : string -> string.

(** Lines 74-88, one pass. *)
Definition update_display (domain : string) : M state unit :=
  (files <- (fun st => match event_handler st with
                       | Some h => ret (files_content h) st
                       | None => unbound "event_handler" st
                       end) ;;
   if Dict.truthy files then
     let combined_content := render files in
     emit (placeholder_markdown combined_content) ;;
     let download_link :=
       download_button combined_content
                       ("scraped_content_" ++ domain ++ ".txt")
                       "⬇️ Download Content" in
     emit (files_markdown download_link)
   else ret tt)%eff.

(** The loop of lines 66-90, over the iterations the script describes;
    [time.sleep(0.1)] has no counterpart. *)
Fixpoint drain (domain : string) (ticks : list tick) : M state unit :=
  match ticks with
  | [] => hang
  | t :: ticks' =>
      (output <- readline t ;;
       stop <- (if output =? "" then
                  code <- poll ;; ret (is_not_None code)
                else ret false) ;;
       if (stop : bool) then ret tt
       else
         (if output =? "" then ret tt
          else emit (status_write (strip output))) ;;
         update_display domain ;;
         drain domain ticks')%eff
  end.

(** The body of the [try] of [run_scraper] (lines 44-94); the value
    returned is an [int] or [None]. *)
Definition run_scraper_body (w : world) (url : string) : M state (option Z) :=
  (let domain := domain url in
   let output_dir := Path.join "out" domain in
   fallible (w_makedirs w) ;;
   modify (set_event_handler (Some (FileHandler_init output_dir))) ;;
   modify (set_observer (Some ObserverCreated)) ;;
   fallible (w_schedule w) ;;
   fallible (w_start w) ;;
   modify (set_observer (Some ObserverRunning)) ;;
   emit files_empty ;;
   fallible (w_spawn w) ;;
   modify (set_process (Some {| args := ["node"; "crawler.mjs"; url];
                                returncode := None; child_status := None;
                                stderr_unread := [] |})) ;;
   drain domain (w_ticks w) ;;
   modify (set_observer (Some ObserverStopped)) ;;
   modify (set_observer (Some ObserverJoined)) ;;
   poll)%eff.

(** [run_scraper] (lines 41-98) *)
Definition run_scraper (w : world) (url : string) : M state (option Z) :=
  try_except
    (run_scraper_body w url)
    (fun e =>
       (emit (st_error ("Error running scraper: " ++ str e)) ;;
        ret (Some 1%Z))%eff).

(** [save_env_vars] (lines 35-39) *)
Definition save_env_vars (api_key : string) : M state unit :=
  emit (env_write ("CODEGPT_API_KEY=" ++ api_key ++ Str.nl
                   ++ "AGENT_ID=403d73ce-4400-4020-8164-d2bbef542186" ++ Str.nl)).

(** [main], lines 160-186: the button is live only with a key and a valid
    URL; [clicked] tells whether the user pressed it. *)
Definition main (w : world) (api_key url : string) (clicked : bool)
  : M state unit :=
  let url_valid := url_valid url in
  let start_button := clicked && (negb (api_key =? "") && url_valid) in
  if start_button then
    (save_env_vars api_key ;;
     result <- run_scraper w url ;;
     match result with
     | Some 0%Z => emit (st_success "✅ Scraping completed successfully!")
     | _ => emit (st_error "❌ There was an error during scraping")
     end)%eff
  else ret tt.

End Orchestrator.

(** The success and failure indications among the calls. *)
Definition is_indication (c : call) : bool :=
  match c with
  | st_error _ | st_success _ => true
  | _ => false
  end.

Definition indications (st : state) : list call := filter is_indication (calls st).

(** The resources a run still holds: a running observer thread, a worker
    whose end has not been collected. *)
Definition observer_held (st : state) : bool :=
  match observer st with
  | Some ObserverRunning => true
  | _ => false
  end.

Definition process_held (st : state) : bool :=
  match process st with
  | Some p => negb (is_not_None (returncode p))
  | None => false
  end.

(** * Notions the properties are stated with *)

(** An item comes before another one by its filename. *)
Definition key_lt (x y : string * string) : Prop :=
  String.compare (fst x) (fst y) = Lt.

(** The texts of a list, one after the other. *)
Definition concat_all (ls : list string) : string := fold_right append "" ls.

(** A byte value. *)
Definition byte (b : N) : Prop := (b < 256)%N.

(** A byte that is not the double quote. *)
Definition plain (b : N) : Prop := byte b /\ b <> 34%N.

(** [P] holds of every number below [n], by running it on each. *)
Definition all_below (n : nat) (P : N -> bool) : bool :=
  forallb P (map N.of_nat (seq 0 n)).

(** The preparation of a run meets no failure. *)
Definition clean_setup (w : world) : Prop :=
  w_makedirs w = None /\ w_schedule w = None /\ w_start w = None
  /\ w_spawn w = None.

(** An iteration after which the loop goes on: a line was read, or none
    while the worker still runs. *)
Definition goes_on (t : tick) : bool :=
  match tk_readline t with
  | inl _ => false
  | inr output => negb (output =? "") || negb (is_not_None (tk_status t))
  end.

(** An iteration in which the loop finds the worker ended with [code]: the
    output is at its end and the system reports the code. *)
Definition ends_with (t : tick) (code : Z) : Prop :=
  tk_readline t = inr "" /\ tk_status t = Some code.

(** The worker ends with [code] under the eyes of the loop: all is set up,
    the loop goes on for some iterations, then finds the worker ended. *)
Definition worker_exits (w : world) (code : Z) : Prop :=
  clean_setup w
  /\ exists pre last rest,
       w_ticks w = (pre ++ last :: rest)%list
       /\ forallb goes_on pre = true /\ ends_with last code.

(** An exception is raised inside the body of [run_scraper]: by the
    creation of the directory, by the start of the watcher, by the spawn
    of the worker, or in the loop. *)
Inductive fails (w : world) (e : exn) : Prop :=
| fails_makedirs :
    w_makedirs w = Some e -> fails w e
| fails_schedule :
    w_makedirs w = None -> w_schedule w = Some e -> fails w e
| fails_start :
    w_makedirs w = None -> w_schedule w = None -> w_start w = Some e ->
    fails w e
| fails_spawn :
    w_makedirs w = None -> w_schedule w = None -> w_start w = None ->
    w_spawn w = Some e -> fails w e
| fails_drain pre t rest :
    clean_setup w -> w_ticks w = (pre ++ t :: rest)%list ->
    forallb goes_on pre = true -> tk_readline t = inl e -> fails w e.

(** A run in which nothing fails and the worker, silent, is found ended
    with [code] at once. *)
Definition plain_exit (code : Z) : world :=
  {| w_makedirs := None; w_schedule := None; w_start := None; w_spawn := None;
     w_ticks := [{| tk_events := []; tk_stderr := []; tk_status := Some code;
                    tk_readline := inr "" |}] |}.

(** The indication [main] ends a run with (lines 183-186). *)
Definition terminal (result : option Z) : call :=
  match result with
  | Some 0%Z => st_success "✅ Scraping completed successfully!"
  | _ => st_error "❌ There was an error during scraping"
  end.

(** The objects of a run once the worker is spawned (line 64). *)
Definition spawned (url : string) (st : state) : state :=
  {| event_handler := Some (FileHandler_init (Path.join "out" (domain url)));
     observer := Some ObserverRunning;
     process := Some {| args := ["node"; "crawler.mjs"; url]; returncode := None;
                        child_status := None; stderr_unread := [] |};
     stdout := stdout st;
     calls := calls st ++ [files_empty] |}.

(** In the loop: the observer runs, the handler exists, and the return
    code of the worker is not known yet. *)
Definition draining (st : state) : Prop :=
  observer st = Some ObserverRunning
  /\ (exists h, event_handler st = Some h)
  /\ (exists p, process st = Some p /\ returncode p = None).

(** Lines 92-94, after the loop: the observer is stopped and joined and
    the return code of the worker is returned; an exception that left the
    loop goes on. *)
Definition after_drain (r : outcome unit * state) : outcome (option Z) * state :=
  match r with
  | (Ok _, s) =>
      (modify (set_observer (Some ObserverStopped)) ;;
       modify (set_observer (Some ObserverJoined)) ;;
       poll)%eff s
  | (Raise e, s) => (Raise e, s)
  | (Hang, s) => (Hang, s)
  end.

(** What the handler of the [try] does (lines 96-98): the failure shown. *)
Definition reported (e : exn) (st : state) : state :=
  snd (emit (st_error ("Error running scraper: " ++ str e)) st).

(** The same iteration, the worker writing nothing to its standard error. *)
Definition silent (t : tick) : tick :=
  {| tk_events := tk_events t; tk_stderr := []; tk_status := tk_status t;
     tk_readline := tk_readline t |}.

(** The same run, the worker writing nothing to its standard error. *)
Definition silenced (w : world) : world :=
  {| w_makedirs := w_makedirs w; w_schedule := w_schedule w;
     w_start := w_start w; w_spawn := w_spawn w;
     w_ticks := map silent (w_ticks w) |}.

(** A state with the standard error pipe of the worker left out. *)
Definition unpiped (st : state) : state :=
  set_process
    (option_map (fun p => {| args := args p; returncode := returncode p;
                             child_status := child_status p;
                             stderr_unread := [] |}) (process st)) st.

(** Two computations that neither read nor depend on the standard error
    pipe: from states that differ in it only, they end alike, in states
    that differ in it only. *)
Definition blind {A} (m m' : M state A) : Prop :=
  forall st st', unpiped st = unpiped st' ->
    fst (m st) = fst (m' st') /\ unpiped (snd (m st)) = unpiped (snd (m' st')).

(** * Notions the further properties are stated with *)

(** Whether the character [c] occurs in [s]. *)
Fixpoint contains_char (c : ascii) (s : string) : bool :=
  match s with
  | EmptyString => false
  | String a s' => Ascii.eqb a c || contains_char c s'
  end.

(** What may follow the host in a URL: nothing, or a text that begins with
    ['/']. *)
Definition path_like (rest : string) : Prop :=
  rest = "" \/ exists p, rest = String "/" p.

(** What the handler stores for a delivered event, if anything: the key
    and the text. *)
Definition stored_by (d : delivery) : option (string * string) :=
  match ev_type (dl_event d), dl_read d with
  | EVENT_TYPE_MODIFIED, inr content =>
      if qualifies (dl_event d)
      then Some (Path.basename (src_path (dl_event d)), content)
      else None
  | _, _ => None
  end.

(** What the handler prints for a delivered event. *)
Definition printed_by (d : delivery) : list string :=
  match ev_type (dl_event d), dl_read d with
  | EVENT_TYPE_MODIFIED, inl e =>
      if qualifies (dl_event d) then ["Error reading file: " ++ str e] else []
  | _, _ => []
  end.

(** The text the events [ds] store last under [name], if any does. *)
Fixpoint latest (name : string) (ds : list delivery) : option string :=
  match ds with
  | [] => None
  | d :: ds' =>
      match latest name ds' with
      | Some c => Some c
      | None =>
          match stored_by d with
          | Some (k, c) => if k =? name then Some c else None
          | None => None
          end
      end
  end.

(** The call an iteration makes for the line it read: none for an empty
    line. *)
Definition line_calls (strip : string -> string) (t : tick) : list call :=
  match tk_readline t with
  | inr output => if output =? "" then [] else [status_write (strip output)]
  | inl _ => []
  end.

(** The calls of lines 74-88 for the mapping [files]: none while it is
    empty, else the bundle and its link. *)
Definition display_calls (dom : string) (files : Dict.t) : list call :=
  if Dict.truthy files then
    [placeholder_markdown (render files);
     files_markdown (download_button (render files)
                                     ("scraped_content_" ++ dom ++ ".txt")
                                     "⬇️ Download Content")]
  else [].

(** The calls of the iterations [pre] of the loop, none of which ends it,
    the handler being [h] when they begin. *)
Fixpoint loop_calls (strip : string -> string) (dom : string) (h : watcher)
         (pre : list tick) : list call :=
  match pre with
  | [] => []
  | t :: pre' =>
      let h' := after_events (tk_events t) h in
      (line_calls strip t ++ display_calls dom (files_content (wt_self h'))
       ++ loop_calls strip dom h' pre')%list
  end.

(** The handler of a run that begins in [st], before any event. *)
Definition fresh_watcher (url : string) (st : state) : watcher :=
  {| wt_self := FileHandler_init (Path.join "out" (domain url));
     wt_stdout := stdout st |}.

(** The events of a sequence of iterations, in their order. *)
Definition events_of (ticks : list tick) : list delivery :=
  flat_map tk_events ticks.

(** The texts written to the status container. *)
Definition status_lines (cs : list call) : list string :=
  flat_map (fun c => match c with status_write text => [text] | _ => [] end) cs.

(** The lines read from the worker that are not empty. *)
Definition lines_read (ticks : list tick) : list string :=
  flat_map (fun t => match tk_readline t with
                     | inr output => if output =? "" then [] else [output]
                     | inl _ => []
                     end) ticks.

(** The bundle displayed last, and the link offered last. *)
Definition last_bundle (cs : list call) : option string :=
  fold_left (fun acc c => match c with placeholder_markdown b => Some b | _ => acc end)
            cs None.

Definition last_link (cs : list call) : option string :=
  fold_left (fun acc c => match c with files_markdown l => Some l | _ => acc end)
            cs None.

(** The link on screen carries the bundle on screen. *)
Definition in_step (cs : list call) : Prop :=
  match last_bundle cs, last_link cs with
  | Some b, Some l => downloaded l = Some b
  | None, None => True
  | _, _ => False
  end.

(** A computation after which the link on screen still carries the bundle
    on screen. *)
Definition keeps_in_step {A} (m : M state A) : Prop :=
  forall st, in_step (calls st) -> in_step (calls (snd (m st))).

(** A run of three iterations: a line is read while [b.txt] is written, the
    output ends while [a.txt] is written and the worker still runs, then
    the worker is found ended with code 0 while [c.txt] is written. *)
Definition sample_world : world :=
  let modified name text :=
    {| dl_event := {| ev_type := EVENT_TYPE_MODIFIED; is_directory := false;
                      src_path := "out/example.com/" ++ name |};
       dl_read := inr text |} in
  {| w_makedirs := None; w_schedule := None; w_start := None; w_spawn := None;
     w_ticks :=
       [{| tk_events := [modified "b.txt" "Y"]; tk_stderr := [];
           tk_status := None; tk_readline := inr ("crawling" ++ Str.nl) |};
        {| tk_events := [modified "a.txt" "X"]; tk_stderr := [];
           tk_status := None; tk_readline := inr "" |};
        {| tk_events := [modified "c.txt" "Z"]; tk_stderr := [];
           tk_status := Some 0%Z; tk_readline := inr "" |}] |}.

(** The same worker writing no file. *)
Definition quiet_world : world :=
  {| w_makedirs := None; w_schedule := None; w_start := None; w_spawn := None;
     w_ticks :=
       [{| tk_events := []; tk_stderr := [];
           tk_status := None; tk_readline := inr ("crawling" ++ Str.nl) |};
        {| tk_events := []; tk_stderr := [];
           tk_status := Some 0%Z; tk_readline := inr "" |}] |}.

(** * Properties of the crawl target *)

Section Target.

Lemma split_not_nil (s : string) (sep : ascii) : Str.split s sep <> [].
Proof.
  destruct s as [|c s]; simpl; [discriminate|].
  destruct (Ascii.eqb c sep); [discriminate|].
  destruct (Str.split s sep); discriminate.
Qed.

Lemma split_head_cons (c : ascii) (s : string) (sep : ascii) :
  Ascii.eqb c sep = false ->
  hd "" (Str.split (String c s) sep) = String c (hd "" (Str.split s sep)).
Proof.
  intros Hc; simpl; rewrite Hc.
  destruct (Str.split s sep) eqn:E; [|reflexivity].
  exfalso; exact (split_not_nil _ _ E).
Qed.

(** The first field of a split holds no separator. *)
Lemma split_head_no_sep (s : string) (sep c : ascii) :
  In c (Str.chars (hd "" (Str.split s sep))) -> c <> sep.
Proof.
  induction s as [|a s IH]; [simpl; tauto|].
  destruct (Ascii.eqb a sep) eqn:Ha.
  - simpl; rewrite Ha; simpl; tauto.
  - rewrite (split_head_cons a s sep Ha); simpl.
    intros [<-|Hin]; [|exact (IH Hin)].
    intros ->; rewrite Ascii.eqb_refl in Ha; discriminate.
Qed.

(** The first field is empty exactly when the text is empty or begins
    with the separator. *)
Lemma split_head_empty (s : string) (sep : ascii) :
  hd "" (Str.split s sep) = ""
  <-> s = "" \/ Str.startswith s (String sep "") = true.
Proof.
  destruct s as [|a s]; simpl.
  - split; auto.
  - unfold Str.startswith; simpl.
    destruct (Ascii.eqb a sep) eqn:Ha.
    + apply Ascii.eqb_eq in Ha; subst a.
      destruct (ascii_dec sep sep) as [_|N]; [|congruence].
      split; [intros _; right; now destruct s|reflexivity].
    + assert (a <> sep) as N
          by (intros ->; rewrite Ascii.eqb_refl in Ha; discriminate).
      destruct (ascii_dec sep a) as [->|_]; [congruence|].
      destruct (Str.split s sep); simpl;
        (split; [discriminate|intros [?|?]; discriminate]).
Qed.

Lemma chars_app (a b : string) : Str.chars (a ++ b) = (Str.chars a ++ Str.chars b)%list.
Proof. induction a as [|c a IH]; simpl; [reflexivity|now rewrite <- IH]. Qed.

End Target.

(** C2, as stated, fails: [https://] passes the check of [main] and its
    domain is empty. *)
Lemma domain_of_bare_scheme_is_empty :
  url_valid "https://" = true /\ domain "https://" = "".
Proof. split; reflexivity. Qed.

(** C2, amended: for every URL the derived domain holds no ['/'], hence no
    [://] either; it is empty exactly when nothing, or a text that begins
    with ['/'], is left of the URL once its scheme markers are removed. *)
Theorem domain_has_no_separator (url : string) :
  (forall c, In c (Str.chars (domain url)) -> c <> "/"%char)
  /\ (forall a b, domain url <> a ++ "://" ++ b)
  /\ (domain url = ""
      <-> strip_schemes url = "" \/ Str.startswith (strip_schemes url) "/" = true).
Proof.
  split; [|split].
  - intros c; apply split_head_no_sep.
  - intros a b E.
    apply (split_head_no_sep (strip_schemes url) "/" "/"); [|reflexivity].
    fold (domain url); rewrite E, !chars_app.
    apply in_or_app; right; simpl; auto.
  - apply split_head_empty.
Qed.

(** * Properties of the dict *)

Section DictFacts.

Lemma get_set_same (d : Dict.t) (k v : string) :
  Dict.get (Dict.set d k v) k = Some v.
Proof.
  induction d as [|[k' v'] d IH]; simpl.
  - now rewrite String.eqb_refl.
  - destruct (k' =? k) eqn:E; simpl; [now rewrite String.eqb_refl|].
    now rewrite E.
Qed.

Lemma get_set_other (d : Dict.t) (k v k0 : string) :
  k0 <> k -> Dict.get (Dict.set d k v) k0 = Dict.get d k0.
Proof.
  intros N; induction d as [|[k' v'] d IH]; simpl.
  - destruct (k =? k0) eqn:E; [|reflexivity].
    apply String.eqb_eq in E; congruence.
  - destruct (k' =? k) eqn:E; simpl.
    + apply String.eqb_eq in E; subst k'.
      destruct (k =? k0) eqn:E0; [|reflexivity].
      apply String.eqb_eq in E0; congruence.
    + now rewrite IH.
Qed.

Lemma set_keys (d : Dict.t) (k v k0 : string) :
  In k0 (map fst (Dict.set d k v)) <-> k0 = k \/ In k0 (map fst d).
Proof.
  induction d as [|[k' v'] d IH]; simpl.
  - intuition.
  - destruct (k' =? k) eqn:E; simpl.
    + apply String.eqb_eq in E; subst k'; intuition.
    + rewrite IH; intuition.
Qed.

(** Assignment keeps the keys distinct. *)
Lemma set_wf (d : Dict.t) (k v : string) : Dict.wf d -> Dict.wf (Dict.set d k v).
Proof.
  unfold Dict.wf; induction d as [|[k' v'] d IH]; simpl; intros H.
  - constructor; [simpl; tauto|constructor].
  - inversion H as [|? ? Hn Hd]; subst.
    destruct (k' =? k) eqn:E; simpl.
    + apply String.eqb_eq in E; subst k'; now constructor.
    + constructor; [|now apply IH].
      rewrite set_keys; intros [->|Hin]; [|tauto].
      rewrite String.eqb_refl in E; discriminate.
Qed.

Lemma get_in (d : Dict.t) (k v : string) :
  Dict.wf d -> (In (k, v) d <-> Dict.get d k = Some v).
Proof.
  unfold Dict.wf; induction d as [|[k' v'] d IH]; simpl; intros H.
  - split; [tauto|discriminate].
  - inversion H as [|? ? Hn Hd]; subst.
    destruct (k' =? k) eqn:E.
    + apply String.eqb_eq in E; subst k'; split.
      * intros [[= ->]|Hin]; [reflexivity|].
        exfalso; apply Hn; change k with (fst (k, v)); now apply in_map.
      * intros [= ->]; now left.
    + rewrite <- (IH Hd); split; [|tauto].
      intros [[= -> ->]|Hin]; [|exact Hin].
      rewrite String.eqb_refl in E; discriminate.
Qed.

End DictFacts.

(** * Properties of the watcher *)

Section Watcher.

Lemma on_modified_read_ok (d : delivery) (w : watcher) (content : string) :
  qualifies (dl_event d) = true -> dl_read d = inr content ->
  on_modified d w =
    (Ok tt,
     {| wt_self :=
          {| output_dir := output_dir (wt_self w);
             files_content :=
               Dict.set (files_content (wt_self w))
                        (Path.basename (src_path (dl_event d))) content |};
        wt_stdout := wt_stdout w |}).
Proof.
  unfold on_modified; intros -> ->; reflexivity.
Qed.

Lemma on_modified_read_fails (d : delivery) (w : watcher) (e : exn) :
  qualifies (dl_event d) = true -> dl_read d = inl e ->
  on_modified d w =
    (Ok tt,
     {| wt_self := wt_self w;
        wt_stdout := wt_stdout w ++ ["Error reading file: " ++ str e] |}).
Proof.
  unfold on_modified; intros -> ->; reflexivity.
Qed.

Lemma on_modified_ignores (d : delivery) (w : watcher) :
  qualifies (dl_event d) = false -> on_modified d w = (Ok tt, w).
Proof.
  unfold on_modified; intros ->; reflexivity.
Qed.

(** No handler lets an exception out. *)
Lemma dispatch_returns (d : delivery) (w : watcher) : fst (dispatch d w) = Ok tt.
Proof.
  unfold dispatch; destruct (ev_type (dl_event d)); try reflexivity.
  destruct (qualifies (dl_event d)) eqn:Q.
  - destruct (dl_read d) as [e|content] eqn:R.
    + now rewrite (on_modified_read_fails d w e Q R).
    + now rewrite (on_modified_read_ok d w content Q R).
  - now rewrite (on_modified_ignores d w Q).
Qed.

(** The handler keeps the keys of its dict distinct. *)
Lemma dispatch_wf (d : delivery) (w : watcher) :
  Dict.wf (files_content (wt_self w)) ->
  Dict.wf (files_content (wt_self (snd (dispatch d w)))).
Proof.
  intros H; unfold dispatch; destruct (ev_type (dl_event d)); try exact H.
  destruct (qualifies (dl_event d)) eqn:Q.
  - destruct (dl_read d) as [e|content] eqn:R.
    + now rewrite (on_modified_read_fails d w e Q R).
    + rewrite (on_modified_read_ok d w content Q R); simpl; now apply set_wf.
  - now rewrite (on_modified_ignores d w Q).
Qed.

Lemma deliver_cons (d : delivery) (ds : list delivery) (w : watcher) :
  deliver (d :: ds) w = deliver ds (snd (dispatch d w)).
Proof.
  simpl; unfold bind.
  pose proof (dispatch_returns d w) as H.
  destruct (dispatch d w) as [[[]| |] w']; simpl in *; try discriminate.
  reflexivity.
Qed.

Lemma after_events_wf (ds : list delivery) (w : watcher) :
  Dict.wf (files_content (wt_self w)) ->
  Dict.wf (files_content (wt_self (after_events ds w))).
Proof.
  revert w; induction ds as [|d ds IH]; intros w H; [exact H|].
  unfold after_events; rewrite deliver_cons.
  apply IH, dispatch_wf, H.
Qed.

End Watcher.

(** C4, as stated, fails: the creation of a text file, delivered with the
    file readable, leaves the mapping of a fresh handler empty. *)
Lemma created_file_is_not_stored :
  let created :=
    {| dl_event := {| ev_type := EVENT_TYPE_CREATED; is_directory := false;
                      src_path := "out/example.com/a.txt" |};
       dl_read := inr "X" |} in
  let w := {| wt_self := FileHandler_init "out/example.com"; wt_stdout := [] |} in
  qualifies (dl_event created) = true
  /\ files_content (wt_self (after_events [created] w)) = Dict.empty.
Proof. split; reflexivity. Qed.

(** C4, amended: of the events delivered, the handler acts on modification
    events only (creation, deletion and move events change nothing); among
    those it ignores directories and paths that do not end in [.txt]; on a
    modification event of a [.txt] file whose read succeeds, the text read
    is stored under the base name of the path, the other keys keeping
    their values. *)
Theorem dispatch_stores_modified_text_files (d : delivery) (w : watcher) :
  let ev := dl_event d in
  let w' := snd (dispatch d w) in
  (ev_type ev <> EVENT_TYPE_MODIFIED \/ is_directory ev = true
   \/ Str.endswith (src_path ev) ".txt" = false -> w' = w)
  /\ (forall content,
        ev_type ev = EVENT_TYPE_MODIFIED -> is_directory ev = false ->
        Str.endswith (src_path ev) ".txt" = true -> dl_read d = inr content ->
        Dict.get (files_content (wt_self w')) (Path.basename (src_path ev))
          = Some content
        /\ (forall k, k <> Path.basename (src_path ev) ->
              Dict.get (files_content (wt_self w')) k
                = Dict.get (files_content (wt_self w)) k)
        /\ wt_stdout w' = wt_stdout w).
Proof.
  cbv zeta; split.
  - intros H; unfold dispatch.
    destruct (ev_type (dl_event d)) eqn:T; try reflexivity.
    rewrite on_modified_ignores; [reflexivity|].
    unfold qualifies.
    destruct H as [H|[H|H]]; [congruence|rewrite H|rewrite H].
    + reflexivity.
    + apply andb_false_r.
  - intros content T D X R; unfold dispatch; rewrite T.
    rewrite (on_modified_read_ok d w content); [|unfold qualifies; now rewrite D, X|exact R].
    simpl; split; [apply get_set_same|split; [|reflexivity]].
    intros k N; now apply get_set_other.
Qed.

Lemma dispatch_stores_modified_text_files_witness :
  let d := {| dl_event := {| ev_type := EVENT_TYPE_MODIFIED; is_directory := false;
                             src_path := "out/example.com/a.txt" |};
              dl_read := inr "X" |} in
  let w := {| wt_self := FileHandler_init "out/example.com"; wt_stdout := [] |} in
  Dict.get (files_content (wt_self (snd (dispatch d w)))) "a.txt" = Some "X".
Proof.
  cbv zeta.
  refine (proj1 (proj2 (dispatch_stores_modified_text_files _ _) "X" _ _ _ _));
    reflexivity.
Defined.

(** C9: when the read of a file fails while an event is handled, the
    handler returns normally, the handler object and with it the whole
    mapping is what it was, and the failure is printed, once. *)
Theorem read_failure_keeps_mapping (d : delivery) (w : watcher) (e : exn) :
  qualifies (dl_event d) = true -> dl_read d = inl e ->
  fst (on_modified d w) = Ok tt
  /\ wt_self (snd (on_modified d w)) = wt_self w
  /\ (forall k, Dict.get (files_content (wt_self (snd (on_modified d w)))) k
                = Dict.get (files_content (wt_self w)) k)
  /\ wt_stdout (snd (on_modified d w))
     = app (wt_stdout w) ["Error reading file: " ++ str e].
Proof.
  intros Q R; rewrite (on_modified_read_fails d w e Q R); simpl.
  repeat split; reflexivity.
Qed.

Lemma read_failure_keeps_mapping_witness :
  let d := {| dl_event := {| ev_type := EVENT_TYPE_MODIFIED; is_directory := false;
                             src_path := "out/example.com/a.txt" |};
              dl_read := inl (Exception "[Errno 13] Permission denied") |} in
  let w := {| wt_self := {| output_dir := "out/example.com";
                            files_content := [("a.txt", "X")] |};
              wt_stdout := [] |} in
  files_content (wt_self (snd (on_modified d w))) = [("a.txt", "X")].
Proof.
  cbv zeta.
  refine (f_equal files_content
            (proj1 (proj2 (read_failure_keeps_mapping _ _ _ _ _))));
    reflexivity.
Defined.

(** * Properties of the bundle *)

Section Bundle.

Lemma append_assoc (a b c : string) : (a ++ b) ++ c = a ++ (b ++ c).
Proof. induction a as [|x a IH]; simpl; [reflexivity|now rewrite IH]. Qed.

Lemma append_nil_r (a : string) : a ++ "" = a.
Proof. induction a as [|x a IH]; simpl; [reflexivity|now rewrite IH]. Qed.

(** The loop of lines 76-77 appends the sections in order. *)
Lemma fold_sections (items : list (string * string)) (acc : string) :
  fold_left (fun combined item => combined ++ section item) items acc
  = acc ++ concat_all (map section items).
Proof.
  revert acc; induction items as [|x items IH]; intros acc; simpl.
  - now rewrite append_nil_r.
  - now rewrite IH, append_assoc.
Qed.

Lemma key_lt_trans (x y z : string * string) : key_lt x y -> key_lt y z -> key_lt x z.
Proof.
  unfold key_lt; intros H1 H2.
  apply String_as_OT.cmp_lt in H1; apply String_as_OT.cmp_lt in H2.
  apply String_as_OT.cmp_lt; eapply String_as_OT.lt_trans; eassumption.
Qed.

Lemma key_lt_irrefl (x : string * string) : ~ key_lt x x.
Proof.
  unfold key_lt; intros H.
  pose proof (String.compare_antisym (fst x) (fst x)) as A.
  rewrite H in A; discriminate.
Qed.

(** Sorted items with distinct keys ascend strictly by key. *)
Lemma sorted_strict (l : list (string * string)) :
  NoDup (map fst l) -> Sorted (fun x y => is_true (ItemOrder.leb x y)) l ->
  StronglySorted key_lt l.
Proof.
  intros Hnd Hs; apply Sorted_StronglySorted; [exact key_lt_trans|].
  induction Hs as [|a l Hs IH Hhd]; [constructor|].
  simpl in Hnd; inversion Hnd as [|? ? Hn Hd]; subst.
  constructor; [now apply IH|].
  destruct Hhd as [|b l Hab]; constructor.
  unfold key_lt; unfold is_true, ItemOrder.leb in Hab.
  destruct (String.compare (fst a) (fst b)) eqn:C; try reflexivity.
  - apply String.compare_eq_iff in C.
    exfalso; apply Hn; simpl; now left.
  - discriminate.
Qed.

(** A list that ascends strictly is the only arrangement of its items
    that does. *)
Lemma strict_sorted_unique (l1 l2 : list (string * string)) :
  StronglySorted key_lt l1 -> StronglySorted key_lt l2 ->
  Permutation l1 l2 -> l1 = l2.
Proof.
  revert l2; induction l1 as [|a l1 IH]; intros l2 H1 H2 P.
  - now apply Permutation_nil in P.
  - destruct l2 as [|b l2];
      [apply Permutation_sym, Permutation_nil in P; discriminate|].
    apply StronglySorted_inv in H1; destruct H1 as [H1 F1].
    apply StronglySorted_inv in H2; destruct H2 as [H2 F2].
    assert (a = b) as ->.
    { assert (In a (b :: l2)) as Ia
          by (eapply Permutation_in; [exact P|now left]).
      assert (In b (a :: l1)) as Ib
          by (eapply Permutation_in; [apply Permutation_sym; exact P|now left]).
      destruct Ia as [->|Ia]; [reflexivity|].
      destruct Ib as [->|Ib]; [reflexivity|].
      rewrite Forall_forall in F1, F2.
      exfalso; apply (key_lt_irrefl a).
      eapply key_lt_trans; [apply F1, Ib|apply F2, Ia]. }
    f_equal; apply IH; try assumption.
    eapply Permutation_cons_inv; exact P.
Qed.

Lemma sorted_ascends (d : Dict.t) :
  Dict.wf d -> StronglySorted key_lt (sorted (Dict.items d)).
Proof.
  intros H; apply sorted_strict; [|apply ItemSort.Sorted_sort].
  eapply Permutation_NoDup; [|exact H].
  apply Permutation_map, ItemSort.Permuted_sort.
Qed.

(** Dicts that hold the same values have the same items. *)
Lemma same_items (d1 d2 : Dict.t) :
  Dict.wf d1 -> Dict.wf d2 -> Dict.same d1 d2 -> Permutation d1 d2.
Proof.
  intros W1 W2 S.
  apply NoDup_Permutation.
  - eapply NoDup_map_inv; exact W1.
  - eapply NoDup_map_inv; exact W2.
  - intros [k v]; rewrite (get_in d1 k v W1), (get_in d2 k v W2), (S k); tauto.
Qed.

Lemma render_same (d1 d2 : Dict.t) :
  Dict.wf d1 -> Dict.wf d2 -> Dict.same d1 d2 -> render d1 = render d2.
Proof.
  intros W1 W2 S; unfold render; f_equal.
  apply strict_sorted_unique; try now apply sorted_ascends.
  unfold sorted, Dict.items.
  eapply Permutation_trans; [apply Permutation_sym, ItemSort.Permuted_sort|].
  eapply Permutation_trans; [|apply ItemSort.Permuted_sort].
  now apply same_items.
Qed.

End Bundle.

(** C6: the bundle of a snapshot (a dict: no filename twice) is its
    sections one after the other, one for each file of the snapshot, by
    ascending filename; a section is the header line with the filename,
    then the content as it is, fenced; the bundle is a function of the
    snapshot alone: snapshots that hold the same content under every
    filename have the same bundle.  For the snapshot
    [{"a.txt": "X", "b.txt": "Y"}], in either insertion order, the section
    of [a.txt] comes first and each section holds its content. *)
Theorem render_sections_by_filename (files : Dict.t) :
  Dict.wf files ->
  render files = concat_all (map section (sorted (Dict.items files)))
  /\ Permutation (Dict.items files) (sorted (Dict.items files))
  /\ StronglySorted key_lt (sorted (Dict.items files))
  /\ (forall filename content,
        section (filename, content)
        = ("## 📄 " ++ filename ++ Str.nl)
          ++ ("```" ++ Str.nl ++ content ++ Str.nl ++ "```" ++ Str.nl ++ Str.nl))
  /\ (forall files', Dict.wf files' -> Dict.same files files' ->
        render files = render files')
  /\ render [("a.txt", "X"); ("b.txt", "Y")]
     = section ("a.txt", "X") ++ section ("b.txt", "Y")
  /\ render [("b.txt", "Y"); ("a.txt", "X")]
     = render [("a.txt", "X"); ("b.txt", "Y")].
Proof.
  intros W; split; [|split; [|split; [|split; [|split; [|split]]]]].
  - unfold render; now rewrite fold_sections.
  - apply ItemSort.Permuted_sort.
  - now apply sorted_ascends.
  - intros filename content; unfold section.
    now rewrite !append_assoc.
  - intros files' W' S; now apply render_same.
  - reflexivity.
  - reflexivity.
Qed.

Lemma render_sections_by_filename_witness :
  render [("b.txt", "Y"); ("a.txt", "X")]
  = concat_all (map section (sorted [("b.txt", "Y"); ("a.txt", "X")])).
Proof.
  refine (proj1 (render_sections_by_filename [("b.txt", "Y"); ("a.txt", "X")] _)).
  unfold Dict.wf; simpl.
  repeat constructor; simpl; intuition discriminate.
Defined.

(** C8: whatever events the handler was given, in whatever order and how
    often, two histories that leave the same content under every filename
    give the same bundle. *)
Theorem bundle_depends_on_mapping_only (dir : string) (ds1 ds2 : list delivery) :
  let w0 := {| wt_self := FileHandler_init dir; wt_stdout := [] |} in
  Dict.same (files_content (wt_self (after_events ds1 w0)))
            (files_content (wt_self (after_events ds2 w0))) ->
  render (files_content (wt_self (after_events ds1 w0)))
  = render (files_content (wt_self (after_events ds2 w0))).
Proof.
  intros w0 S.
  apply render_same; try exact S; apply after_events_wf; constructor.
Qed.

Lemma bundle_depends_on_mapping_only_witness :
  let modified name text :=
    {| dl_event := {| ev_type := EVENT_TYPE_MODIFIED; is_directory := false;
                      src_path := "out/example.com/" ++ name |};
       dl_read := inr text |} in
  let w0 := {| wt_self := FileHandler_init "out/example.com"; wt_stdout := [] |} in
  let ds1 := [modified "b.txt" "draft"; modified "a.txt" "X"; modified "b.txt" "Y"] in
  let ds2 := [modified "a.txt" "X"; modified "b.txt" "Y"; modified "a.txt" "X"] in
  files_content (wt_self (after_events ds1 w0)) = [("b.txt", "Y"); ("a.txt", "X")]
  /\ files_content (wt_self (after_events ds2 w0)) = [("a.txt", "X"); ("b.txt", "Y")]
  /\ render (files_content (wt_self (after_events ds1 w0)))
     = render (files_content (wt_self (after_events ds2 w0))).
Proof.
  cbv zeta; split; [reflexivity|split; [reflexivity|]].
  apply (bundle_depends_on_mapping_only "out/example.com").
  change (Dict.same [("b.txt", "Y"); ("a.txt", "X")] [("a.txt", "X"); ("b.txt", "Y")]).
  intros k; cbn [Dict.get].
  destruct (String.eqb_spec "b.txt" k) as [Eb|Eb],
           (String.eqb_spec "a.txt" k) as [Ea|Ea]; try reflexivity.
  congruence.
Defined.

(** * Properties of the download link *)

Section Download.

Local Open Scope N_scope.
Import Base64.

Lemma all_below_spec (n : nat) (P : N -> bool) :
  all_below n P = true -> forall v, v < N.of_nat n -> P v = true.
Proof.
  unfold all_below; intros H v Hv.
  rewrite forallb_forall in H; apply H.
  rewrite <- (N2Nat.id v); apply in_map, in_seq; lia.
Qed.

(** The characters of the alphabet decode to the value they stand for,
    and none is the padding, a quote, or beyond a byte. *)
Lemma enc6_facts (v : N) :
  v < 64 ->
  dec6 (enc6 v) = Some v /\ (enc6 v =? pad) = false
  /\ enc6 v < 256 /\ enc6 v <> 34.
Proof.
  intros Hv.
  assert (all_below 64 (fun v =>
            match dec6 (enc6 v) with Some v' => v' =? v | None => false end
            && negb (enc6 v =? pad) && (enc6 v <? 256) && negb (enc6 v =? 34))
          = true) as H by (vm_compute; reflexivity).
  apply all_below_spec with (v := v) in H; [|exact Hv].
  apply andb_prop in H; destruct H as [H H4].
  apply andb_prop in H; destruct H as [H H3].
  apply andb_prop in H; destruct H as [H1 H2].
  destruct (dec6 (enc6 v)) as [v'|]; [|discriminate].
  apply N.eqb_eq in H1; subst v'.
  apply negb_true_iff in H2, H4.
  apply N.ltb_lt in H3; apply N.eqb_neq in H4.
  auto.
Qed.

Lemma octets_1_3 (a b : N) :
  a < 256 -> b < 256 ->
  sextet1 a < 64 /\ sextet2 a b < 64 /\ sextet3 a b < 64 /\ sextet4 a < 64
  /\ octet1 (sextet1 a) (sextet2 a b) = a
  /\ octet3 (sextet3 a b) (sextet4 b) = b.
Proof.
  intros Ha Hb.
  assert (all_below 256 (fun a => all_below 256 (fun b =>
            (sextet1 a <? 64) && (sextet2 a b <? 64) && (sextet3 a b <? 64)
            && (sextet4 a <? 64)
            && (octet1 (sextet1 a) (sextet2 a b) =? a)
            && (octet3 (sextet3 a b) (sextet4 b) =? b)))
          = true) as H by (vm_compute; reflexivity).
  apply all_below_spec with (v := a) in H; [|exact Ha].
  apply all_below_spec with (v := b) in H; [|exact Hb].
  repeat (let H' := fresh in apply andb_prop in H; destruct H as [H H']).
  repeat match goal with
         | X : (_ <? _) = true |- _ => apply N.ltb_lt in X
         | X : (_ =? _) = true |- _ => apply N.eqb_eq in X
         end.
  auto 10.
Qed.

Lemma octet_2 (a b c : N) :
  a < 256 -> b < 256 -> c < 256 ->
  octet2 (sextet2 a b) (sextet3 b c) = b.
Proof.
  intros Ha Hb Hc.
  assert (all_below 256 (fun a => (N.land a 3 <? 4) && (N.shiftr a 6 <? 4)) = true)
    as Hr by (vm_compute; reflexivity).
  assert (all_below 4 (fun x => all_below 256 (fun b => all_below 4 (fun y =>
            octet2 (N.lor (N.shiftl x 4) (N.shiftr b 4))
                   (N.lor (N.shiftl (N.land b 15) 2) y) =? b)))
          = true) as H by (vm_compute; reflexivity).
  pose proof (all_below_spec _ _ Hr a Ha) as Ra.
  pose proof (all_below_spec _ _ Hr c Hc) as Rc.
  apply andb_prop in Ra; destruct Ra as [Ra _].
  apply andb_prop in Rc; destruct Rc as [_ Rc].
  apply N.ltb_lt in Ra, Rc.
  apply all_below_spec with (v := N.land a 3) in H; [|exact Ra].
  apply all_below_spec with (v := b) in H; [|exact Hb].
  apply all_below_spec with (v := N.shiftr c 6) in H; [|exact Rc].
  apply N.eqb_eq in H; exact H.
Qed.

(** Induction on byte lists, three bytes at a time. *)
Lemma list_ind3 (P : list N -> Prop) :
  P [] -> (forall a, P [a]) -> (forall a b, P [a; b]) ->
  (forall a b c rest, P rest -> P (a :: b :: c :: rest)) ->
  forall l, P l.
Proof.
  intros H0 H1 H2 H3 l.
  enough (P l /\ (forall a, P (a :: l)) /\ (forall a b, P (a :: b :: l))) by tauto.
  induction l as [|x l [IH0 [IH1 IH2]]]; [auto|].
  repeat split; auto.
Qed.

(** C7's core: decoding undoes [b64encode]. *)
Lemma b64decode_b64encode (bs : list N) :
  Forall byte bs -> b64decode (b64encode bs) = Some bs.
Proof.
  induction bs as [|a|a b|a b c rest IH] using list_ind3; intros F.
  - reflexivity.
  - inversion F as [|? ? Ha _]; subst.
    destruct (octets_1_3 a 0 Ha eq_refl) as (S1 & S2 & _ & _ & O1 & _).
    destruct (enc6_facts _ S1) as (D1 & _).
    destruct (enc6_facts _ S2) as (D2 & _).
    cbn [b64encode b64decode]; rewrite D1, D2, N.eqb_refl; cbn [andb].
    now rewrite O1.
  - inversion F as [|? ? Ha F']; subst; inversion F' as [|? ? Hb _]; subst.
    destruct (octets_1_3 a b Ha Hb) as (S1 & S2 & _ & _ & O1 & _).
    destruct (octets_1_3 b 0 Hb eq_refl) as (_ & _ & S3 & _).
    destruct (enc6_facts _ S1) as (D1 & _).
    destruct (enc6_facts _ S2) as (D2 & _).
    destruct (enc6_facts _ S3) as (D3 & P3 & _).
    cbn [b64encode b64decode]; rewrite D1, D2, P3, D3, N.eqb_refl; cbn [andb].
    rewrite O1.
    now rewrite (octet_2 a b 0 Ha Hb eq_refl).
  - inversion F as [|? ? Ha F']; subst; inversion F' as [|? ? Hb F'']; subst.
    inversion F'' as [|? ? Hc Fr]; subst.
    destruct (octets_1_3 a b Ha Hb) as (S1 & S2 & _ & _ & O1 & _).
    destruct (octets_1_3 b c Hb Hc) as (_ & _ & S3 & _ & _ & O3).
    destruct (octets_1_3 c c Hc Hc) as (_ & _ & _ & S4 & _).
    destruct (enc6_facts _ S1) as (D1 & _).
    destruct (enc6_facts _ S2) as (D2 & _).
    destruct (enc6_facts _ S3) as (D3 & P3 & _).
    destruct (enc6_facts _ S4) as (D4 & P4 & _).
    cbn [b64encode b64decode]; rewrite D1, D2, P3, D3, P4, D4, (IH Fr); cbn [andb].
    now rewrite O1, O3, (octet_2 a b c Ha Hb Hc).
Qed.

Lemma encode_bytes (s : string) : Forall byte (encode s).
Proof.
  unfold encode, Str.chars; induction s as [|c s IH]; simpl; constructor.
  - apply N_ascii_bounded.
  - exact IH.
Qed.

Lemma decode_encode (s : string) : decode (encode s) = s.
Proof.
  unfold decode, encode, Str.chars; induction s as [|c s IH]; simpl.
  - reflexivity.
  - now rewrite ascii_N_embedding, IH.
Qed.

Lemma encode_decode (bs : list N) : Forall byte bs -> encode (decode bs) = bs.
Proof.
  unfold decode, encode, Str.chars; induction 1 as [|b bs Hb _ IH]; simpl.
  - reflexivity.
  - now rewrite N_ascii_embedding, IH.
Qed.

Lemma b64encode_plain (bs : list N) : Forall byte bs -> Forall plain (b64encode bs).
Proof.
  assert (plain pad) as Hp by (split; [reflexivity|discriminate]).
  assert (forall v, v < 64 -> plain (enc6 v)) as He
      by (intros v Hv; destruct (enc6_facts v Hv) as (_ & _ & ? & ?); now split).
  induction bs as [|a|a b|a b c rest IH] using list_ind3; intros F.
  - constructor.
  - inversion F as [|? ? Ha _]; subst.
    destruct (octets_1_3 a 0 Ha eq_refl) as (S1 & S2 & _).
    cbn [b64encode]; repeat (apply Forall_cons; [solve [auto]|]); apply Forall_nil.
  - inversion F as [|? ? Ha F']; subst; inversion F' as [|? ? Hb _]; subst.
    destruct (octets_1_3 a b Ha Hb) as (S1 & S2 & _).
    destruct (octets_1_3 b 0 Hb eq_refl) as (_ & _ & S3 & _).
    cbn [b64encode]; repeat (apply Forall_cons; [solve [auto]|]); apply Forall_nil.
  - inversion F as [|? ? Ha F']; subst; inversion F' as [|? ? Hb F'']; subst.
    inversion F'' as [|? ? Hc Fr]; subst.
    destruct (octets_1_3 a b Ha Hb) as (S1 & S2 & _).
    destruct (octets_1_3 b c Hb Hc) as (_ & _ & S3 & _).
    destruct (octets_1_3 c c Hc Hc) as (_ & _ & _ & S4 & _).
    cbn [b64encode]; repeat (apply Forall_cons; [solve [auto]|]); auto.
Qed.

Lemma plain_bytes (bs : list N) : Forall plain bs -> Forall byte bs.
Proof. apply Forall_impl; intros b [H _]; exact H. Qed.

Lemma up_to_quote_decode (bs : list N) (tail : string) :
  Forall plain bs ->
  up_to_quote (decode bs ++ Str.dq ++ tail)%string = decode bs.
Proof.
  unfold decode; induction 1 as [|b bs [Hb Hq] _ IH]; simpl.
  - reflexivity.
  - destruct (Ascii.eqb_spec (ascii_of_N b) "034") as [E|_].
    + exfalso; apply Hq.
      rewrite <- (N_ascii_embedding b Hb), E; reflexivity.
    + f_equal; exact IH.
Qed.

Lemma substring_skip (p s : string) (m : nat) :
  substring (String.length p) m (p ++ s)%string = substring 0 m s.
Proof. induction p as [|c p IH]; simpl; [reflexivity|exact IH]. Qed.

Lemma substring_all (s : string) : substring 0 (String.length s) s = s.
Proof. induction s as [|c s IH]; simpl; [reflexivity|now rewrite IH]. Qed.

Lemma length_append (a b : string) :
  String.length (a ++ b)%string = (String.length a + String.length b)%nat.
Proof. induction a as [|c a IH]; simpl; [reflexivity|now rewrite IH]. Qed.

(** The payload of a link is what follows its fixed beginning, up to the
    closing quote. *)
Lemma payload_of_link (body : string) :
  payload_of ("<a href=" ++ Str.dq ++ "data:text/plain;base64," ++ body)%string
  = up_to_quote body.
Proof.
  unfold payload_of.
  set (intro := ("<a href=" ++ Str.dq ++ "data:text/plain;base64,")%string).
  change ("<a href=" ++ Str.dq ++ "data:text/plain;base64," ++ body)%string
    with (intro ++ body)%string.
  rewrite length_append, substring_skip.
  replace (String.length intro + String.length body - String.length intro)%nat
    with (String.length body) by lia.
  now rewrite substring_all.
Qed.

End Download.

(** C7: the text recovered from the download link of a bundle, by taking
    the payload of the link (what lies between [base64,] and the closing
    quote) and undoing the base64 and the UTF-8 encoding, is the bundle
    itself, whatever the snapshot, the file name and the label. *)
Theorem download_link_round_trip (files : Dict.t) (filename button_text : string) :
  downloaded (download_button (render files) filename button_text)
  = Some (render files).
Proof.
  generalize (render files) as content; intros content.
  unfold downloaded, download_button.
  rewrite payload_of_link.
  pose proof (b64encode_plain _ (encode_bytes content)) as Hp.
  rewrite (up_to_quote_decode _ _ Hp).
  rewrite (encode_decode _ (plain_bytes _ Hp)).
  rewrite (b64decode_b64encode _ (encode_bytes content)); simpl.
  now rewrite decode_encode.
Qed.

(** * Properties of a run *)

Section Run.

Variable strip : string -> string.

Lemma bind_ok {A B : Type} (m : M state A) (k : A -> M state B)
      (st st' : state) (a : A) :
  m st = (Ok a, st') -> bind m k st = k a st'.
Proof. unfold bind; now intros ->. Qed.

Lemma bind_raise {A B : Type} (m : M state A) (k : A -> M state B)
      (st st' : state) (e : exn) :
  m st = (Raise e, st') -> bind m k st = (Raise e, st').
Proof. unfold bind; now intros ->. Qed.

Lemma indications_app (st : state) (cs : list call) (l : list call) :
  calls st = (l ++ cs)%list ->
  forallb (fun c => negb (is_indication c)) cs = true ->
  indications st = filter is_indication l.
Proof.
  unfold indications; intros -> H; rewrite filter_app.
  assert (filter is_indication cs = []) as ->; [|apply app_nil_r].
  induction cs as [|c cs IH]; simpl in *; [reflexivity|].
  apply andb_prop in H; destruct H as [Hc H].
  apply negb_true_iff in Hc; rewrite Hc; auto.
Qed.

(** Lines 74-88 add no indication and touch no object. *)
Lemma update_display_draining (dom : string) (st : state) :
  draining st ->
  exists st', update_display dom st = (Ok tt, st')
              /\ draining st'
              /\ process st' = process st
              /\ observer st' = observer st
              /\ indications st' = indications st.
Proof.
  intros (Ho & (h & Hh) & Hp).
  unfold update_display, bind; rewrite Hh; simpl.
  destruct (Dict.truthy (files_content h)).
  - eexists; split; [reflexivity|].
    unfold draining; simpl; repeat split; eauto.
    eapply indications_app; [simpl; rewrite <- app_assoc; reflexivity|reflexivity].
  - eexists; split; [reflexivity|]; unfold draining; repeat split; eauto.
Qed.

(** While the loop waits in [readline] the objects stay in place. *)
Lemma readline_draining (t : tick) (st : state) (output : string) :
  draining st -> tk_readline t = inr output ->
  exists st', readline t st = (Ok output, st')
              /\ draining st'
              /\ (exists p, process st' = Some p /\ returncode p = None
                            /\ child_status p = tk_status t)
              /\ calls st' = calls st.
Proof.
  intros (Ho & (h & Hh) & (p & Hp & Hr)) R.
  unfold readline, bind, modify; rewrite R; simpl.
  eexists; split; [reflexivity|].
  unfold draining, worker, observer_thread; rewrite Ho, Hh; simpl; rewrite Hp; simpl.
  repeat split; eauto.
Qed.

(** An iteration after which the loop goes on. *)
Lemma drain_goes_on (dom : string) (t : tick) (ticks : list tick) (st : state) :
  draining st -> goes_on t = true ->
  exists st', drain strip dom (t :: ticks) st = drain strip dom ticks st'
              /\ draining st' /\ indications st' = indications st.
Proof.
  intros D G; unfold goes_on in G.
  destruct (tk_readline t) as [e|output] eqn:R; [discriminate|].
  destruct (readline_draining t st output D R)
    as (st1 & E1 & D1 & (p & Hp & Hr & Hc) & C1).
  cbn [drain]; rewrite (bind_ok _ _ _ _ _ E1).
  destruct (output =? "") eqn:O.
  - simpl in G; destruct (tk_status t) eqn:S; [discriminate|].
    assert (poll st1 = (Ok None, st1)) as E2.
    { unfold poll; rewrite Hp, Hr, Hc.
      destruct st1, p; simpl in *; subst; reflexivity. }
    rewrite (bind_ok _ _ _ _ _ (bind_ok _ _ _ _ _ E2)).
    destruct (update_display_draining dom st1 D1) as (st3 & E3 & D3 & _ & _ & I3).
    cbn [is_not_None]; unfold ret at 1.
    rewrite (bind_ok _ _ st1 st1 tt eq_refl), (bind_ok _ _ _ _ _ E3).
    exists st3; split; [reflexivity|split; [assumption|]].
    rewrite I3; unfold indications; now rewrite C1.
  - rewrite (bind_ok _ _ st1 st1 false eq_refl); cbv iota.
    set (st2 := snd (emit (status_write (strip output)) st1)).
    assert (emit (status_write (strip output)) st1 = (Ok tt, st2)) as E2
        by reflexivity.
    assert (draining st2) as D2.
    { destruct D1 as (Ho & Hh & Hq); unfold draining, st2; simpl; eauto. }
    destruct (update_display_draining dom st2 D2) as (st3 & E3 & D3 & _ & _ & I3).
    rewrite (bind_ok _ _ _ _ _ E2), (bind_ok _ _ _ _ _ E3).
    exists st3; split; [reflexivity|split; [assumption|]].
    rewrite I3; apply indications_app with (cs := [status_write (strip output)]);
      [|reflexivity].
    unfold st2; simpl; now rewrite C1.
Qed.

Lemma drain_prefix (dom : string) (pre ticks : list tick) (st : state) :
  draining st -> forallb goes_on pre = true ->
  exists st', drain strip dom (pre ++ ticks) st = drain strip dom ticks st'
              /\ draining st' /\ indications st' = indications st.
Proof.
  revert st; induction pre as [|t pre IH]; intros st D G.
  - exists st; auto.
  - simpl in G; apply andb_prop in G; destruct G as [Gt G].
    destruct (drain_goes_on dom t (pre ++ ticks) st D Gt) as (st1 & E1 & D1 & I1).
    destruct (IH st1 D1 G) as (st2 & E2 & D2 & I2).
    exists st2; split; [|split; [assumption|congruence]].
    now rewrite <- app_comm_cons, E1.
Qed.

(** The iteration in which the loop finds the worker ended. *)
Lemma drain_ends (dom : string) (t : tick) (rest : list tick) (st : state)
      (code : Z) :
  draining st -> ends_with t code ->
  exists st', drain strip dom (t :: rest) st = (Ok tt, st')
              /\ observer st' = Some ObserverRunning
              /\ (exists p, process st' = Some p /\ returncode p = Some code)
              /\ calls st' = calls st.
Proof.
  intros D [R S].
  destruct (readline_draining t st "" D R)
    as (st1 & E1 & D1 & (p & Hp & Hr & Hc) & C1).
  cbn [drain]; rewrite (bind_ok _ _ _ _ _ E1).
  change ("" =? "") with true; cbv iota.
  set (st2 := set_process
                (Some {| args := args p; returncode := Some code;
                         child_status := Some code;
                         stderr_unread := stderr_unread p |}) st1).
  assert (poll st1 = (Ok (Some code), st2)) as E2.
  { unfold poll; rewrite Hp, Hr, Hc, S; reflexivity. }
  rewrite (bind_ok _ _ _ _ _ (bind_ok _ _ _ _ _ E2)).
  cbn [is_not_None].
  exists st2; split; [reflexivity|].
  destruct D1 as (Ho & _); unfold st2; simpl; eauto.
Qed.

(** The iteration in which [readline] raises. *)
Lemma drain_raises (dom : string) (t : tick) (rest : list tick) (st : state)
      (e : exn) :
  draining st -> tk_readline t = inl e ->
  exists st', drain strip dom (t :: rest) st = (Raise e, st')
              /\ draining st' /\ calls st' = calls st.
Proof.
  intros (Ho & (h & Hh) & (p & Hp & Hr)) R.
  cbn [drain].
  set (st1 := worker t (observer_thread (tk_events t) st)).
  assert (readline t st = (Raise e, st1)) as E1
      by (unfold readline, bind, modify; rewrite R; reflexivity).
  rewrite (bind_raise _ _ _ _ _ E1).
  exists st1; split; [reflexivity|].
  unfold st1, draining, worker, observer_thread; rewrite Ho, Hh; simpl.
  rewrite Hp; simpl; eauto 10.
Qed.

Lemma spawned_draining (url : string) (st : state) : draining (spawned url st).
Proof. unfold draining, spawned; simpl; eauto 10. Qed.

(** With a clean preparation, the body is its loop, started on
    [spawned], and what follows the loop. *)
Lemma body_clean (w : world) (url : string) (st : state) :
  clean_setup w ->
  run_scraper_body strip w url st
  = after_drain (drain strip (domain url) (w_ticks w) (spawned url st)).
Proof.
  intros (H1 & H2 & H3 & H4).
  unfold run_scraper_body, after_drain, fallible.
  rewrite H1, H2, H3, H4.
  unfold bind at 1 2 3 4 5 6 7 8 9 10; simpl.
  change (set_process _ _) with (spawned url st).
  destruct (drain strip (domain url) (w_ticks w) (spawned url st)) as [[[]| |] s1];
    reflexivity.
Qed.

Lemma indications_spawned (url : string) (st : state) :
  indications (spawned url st) = indications st.
Proof.
  apply indications_app with (cs := [files_empty]); reflexivity.
Qed.

(** When the loop finds the worker ended, the body returns its code, with
    the observer joined, the worker collected, and no indication made. *)
Lemma body_exits (w : world) (url : string) (st : state) (code : Z) :
  worker_exits w code ->
  exists st', run_scraper_body strip w url st = (Ok (Some code), st')
              /\ observer st' = Some ObserverJoined
              /\ process_held st' = false
              /\ indications st' = indications st.
Proof.
  intros (C & pre & last & rest & T & G & L).
  rewrite (body_clean w url st C), T.
  destruct (drain_prefix (domain url) pre (last :: rest) _
                         (spawned_draining url st) G) as (s1 & E1 & D1 & I1).
  destruct (drain_ends (domain url) last rest s1 code D1 L)
    as (s2 & E2 & Ho & (p & Hp & Hr) & C2).
  rewrite E1, E2.
  unfold after_drain, bind, modify, poll; simpl; rewrite Hp, Hr.
  eexists; split; [reflexivity|].
  unfold process_held, indications; simpl; rewrite Hp, Hr, C2.
  repeat split.
  fold (indications s1); rewrite I1; apply indications_spawned.
Qed.

(** At each place of failure the exception leaves the body, no
    indication made; raised after the start of the watcher, it leaves
    the observer running, and raised in the loop, the worker uncollected. *)
Lemma body_fails (w : world) (url : string) (st : state) (e : exn) :
  fails w e ->
  exists s1, run_scraper_body strip w url st = (Raise e, s1)
             /\ indications s1 = indications st
             /\ (w_makedirs w = None -> w_schedule w = None ->
                 w_start w = None -> observer s1 = Some ObserverRunning)
             /\ (clean_setup w -> process_held s1 = true).
Proof.
  intros [H1|H1 H2|H1 H2 H3|H1 H2 H3 H4|pre t rest C T G R].
  - exists st; unfold run_scraper_body, fallible, bind; rewrite H1.
    split; [reflexivity|split; [reflexivity|split]].
    + intros; congruence.
    + intros (? & _); congruence.
  - exists (set_observer (Some ObserverCreated) (set_event_handler
              (Some (FileHandler_init (Path.join "out" (domain url)))) st)).
    unfold run_scraper_body, fallible, bind; rewrite H1, H2.
    split; [reflexivity|split; [reflexivity|split]].
    + intros; congruence.
    + intros (_ & ? & _); congruence.
  - exists (set_observer (Some ObserverCreated) (set_event_handler
              (Some (FileHandler_init (Path.join "out" (domain url)))) st)).
    unfold run_scraper_body, fallible, bind; rewrite H1, H2, H3.
    split; [reflexivity|split; [reflexivity|split]].
    + intros; congruence.
    + intros (_ & _ & ? & _); congruence.
  - exists (snd (emit files_empty (set_observer (Some ObserverRunning)
              (set_event_handler
                 (Some (FileHandler_init (Path.join "out" (domain url)))) st)))).
    unfold run_scraper_body, fallible, bind; rewrite H1, H2, H3, H4.
    split; [reflexivity|split; [|split]].
    + apply indications_app with (cs := [files_empty]); reflexivity.
    + reflexivity.
    + intros (_ & _ & _ & ?); congruence.
  - rewrite (body_clean w url st C), T.
    destruct (drain_prefix (domain url) pre (t :: rest) _
                           (spawned_draining url st) G) as (s1 & E1 & D1 & I1).
    destruct (drain_raises (domain url) t rest s1 e D1 R) as (s2 & E2 & D2 & C2).
    rewrite E1, E2; exists s2.
    split; [reflexivity|split; [|split]].
    + unfold indications; rewrite C2; fold (indications s1).
      rewrite I1; apply indications_spawned.
    + intros _ _ _; apply D2.
    + intros _; destruct D2 as (_ & _ & (p & Hp & Hr)).
      unfold process_held; now rewrite Hp, Hr.
Qed.

(** The [try]: a normal end of the body is the end of [run_scraper]; an
    exception that leaves the body is shown and 1 is returned. *)
Lemma run_scraper_ok (w : world) (url : string) (st st' : state)
      (result : option Z) :
  run_scraper_body strip w url st = (Ok result, st') ->
  run_scraper strip w url st = (Ok result, st').
Proof. unfold run_scraper, try_except; now intros ->. Qed.

Lemma run_scraper_caught (w : world) (url : string) (st st' : state) (e : exn) :
  run_scraper_body strip w url st = (Raise e, st') ->
  run_scraper strip w url st = (Ok (Some 1%Z), reported e st').
Proof. unfold run_scraper, try_except; now intros ->. Qed.

(** [main] once the button is live and pressed. *)
Lemma main_started (w : world) (api_key url : string) (st : state) :
  api_key <> "" -> url_valid url = true ->
  main strip w api_key url true st
  = (save_env_vars api_key ;;
     result <- run_scraper strip w url ;;
     emit (terminal result))%eff st.
Proof.
  intros K V; unfold main; rewrite V.
  apply String.eqb_neq in K; rewrite K; simpl.
  unfold bind.
  destruct (save_env_vars api_key st) as [[[]| |] s0]; try reflexivity.
  destruct (run_scraper strip w url s0) as [[[[| |]|]| |] s1]; reflexivity.
Qed.

End Run.

(** * The standard error of the worker *)

Section Stderr.

Variable strip : string -> string.

Lemma blind_bind {A B} (m m' : M state A) (k k' : A -> M state B) :
  blind m m' -> (forall a, blind (k a) (k' a)) -> blind (bind m k) (bind m' k').
Proof.
  intros Hm Hk st st' E; unfold bind.
  destruct (Hm st st' E) as [E1 E2].
  destruct (m st) as [[a|e|] s1], (m' st') as [[a'|e'|] s1']; simpl in *;
    try discriminate.
  - injection E1 as <-; exact (Hk a s1 s1' E2).
  - injection E1 as <-; split; [reflexivity|exact E2].
  - split; [reflexivity|exact E2].
Qed.

Lemma blind_ret {A} (a : A) : blind (ret a) (ret a).
Proof. intros st st' E; auto. Qed.

Lemma blind_emit (c : call) : blind (emit c) (emit c).
Proof.
  intros [eh ob pr out cs] [eh' ob' pr' out' cs'] E; split; [reflexivity|].
  unfold unpiped, set_process in *; simpl in *.
  injection E as -> -> E -> ->; now rewrite E.
Qed.

Lemma blind_poll : blind poll poll.
Proof.
  intros [eh ob pr out cs] [eh' ob' pr' out' cs'] E.
  unfold unpiped, set_process in E; simpl in E.
  injection E as -> -> E -> ->.
  unfold poll; simpl.
  destruct pr as [[a r c u]|], pr' as [[a' r' c' u']|]; simpl in E;
    try discriminate; [|auto].
  injection E as -> -> ->; simpl.
  destruct r'; simpl; auto.
Qed.

Lemma blind_update_display (dom : string) :
  blind (update_display dom) (update_display dom).
Proof.
  unfold update_display; apply blind_bind.
  - intros [eh ob pr out cs] [eh' ob' pr' out' cs'] E.
    unfold unpiped, set_process in E; simpl in E.
    injection E as -> -> E -> ->; simpl.
    destruct eh'; simpl; unfold unpiped, set_process; simpl; now rewrite E.
  - intros files; destruct (Dict.truthy files); [|apply blind_ret].
    apply blind_bind; [apply blind_emit|intros _; apply blind_emit].
Qed.

Lemma blind_readline (t : tick) : blind (readline t) (readline (silent t)).
Proof.
  intros [eh ob pr out cs] [eh' ob' pr' out' cs'] E.
  unfold unpiped, set_process in E; simpl in E.
  injection E as -> -> E -> ->.
  unfold readline, bind, modify; simpl.
  assert (unpiped (worker t (observer_thread (tk_events t)
                     {| event_handler := eh'; observer := ob'; process := pr;
                        stdout := out'; calls := cs' |}))
          = unpiped (worker (silent t) (observer_thread (tk_events t)
                     {| event_handler := eh'; observer := ob'; process := pr';
                        stdout := out'; calls := cs' |}))) as U.
  { unfold observer_thread; simpl.
    destruct ob' as [[]|], eh'; simpl;
      destruct pr as [[a r c u]|], pr' as [[a' r' c' u']|]; simpl in E;
      try discriminate; try reflexivity;
      injection E as -> -> ->; reflexivity. }
  destruct (tk_readline t); simpl; auto.
Qed.

Lemma blind_drain (dom : string) (ticks : list tick) :
  blind (drain strip dom ticks) (drain strip dom (map silent ticks)).
Proof.
  induction ticks as [|t ticks IH]; [intros st st' E; simpl; auto|].
  cbn [drain map]; apply blind_bind; [apply blind_readline|].
  intros output; apply blind_bind.
  - destruct (output =? ""); [|apply blind_ret].
    apply blind_bind; [apply blind_poll|intros code; apply blind_ret].
  - intros [|]; [apply blind_ret|].
    apply blind_bind.
    + destruct (output =? ""); [apply blind_ret|apply blind_emit].
    + intros _; apply blind_bind; [apply blind_update_display|intros _; exact IH].
Qed.

Lemma blind_fallible (answer : option exn) : blind (fallible answer) (fallible answer).
Proof. intros st st' E; destruct answer; simpl; auto. Qed.

Lemma blind_modify (f : state -> state) :
  (forall st st', unpiped st = unpiped st' -> unpiped (f st) = unpiped (f st')) ->
  blind (modify f) (modify f).
Proof. intros H st st' E; split; [reflexivity|exact (H st st' E)]. Qed.

Lemma blind_try {A} (m m' : M state A) (h h' : exn -> M state A) :
  blind m m' -> (forall e, blind (h e) (h' e)) ->
  blind (try_except m h) (try_except m' h').
Proof.
  intros Hm Hh st st' E; unfold try_except.
  destruct (Hm st st' E) as [E1 E2].
  destruct (m st) as [[a|e|] s1], (m' st') as [[a'|e'|] s1']; simpl in *;
    try discriminate.
  - split; assumption.
  - injection E1 as <-; exact (Hh e s1 s1' E2).
  - split; [reflexivity|exact E2].
Qed.

Lemma unpiped_fields (st st' : state) :
  unpiped st = unpiped st' ->
  event_handler st = event_handler st' /\ observer st = observer st'
  /\ stdout st = stdout st' /\ calls st = calls st'.
Proof.
  destruct st, st'; unfold unpiped, set_process; simpl.
  intros [= -> -> _ -> ->]; auto.
Qed.

Lemma blind_run_scraper (w : world) (url : string) :
  blind (run_scraper strip w url) (run_scraper strip (silenced w) url).
Proof.
  unfold run_scraper, run_scraper_body.
  apply blind_try;
    [|intros e; apply blind_bind; [apply blind_emit|intros _; apply blind_ret]].
  cbv zeta; cbn [silenced w_makedirs w_schedule w_start w_spawn w_ticks].
  repeat (apply blind_bind; [|intros _]);
    try apply blind_fallible; try apply blind_emit; try apply blind_drain;
    try apply blind_poll;
    apply blind_modify; intros [eh ob pr out cs] [eh' ob' pr' out' cs'];
    unfold unpiped, set_process; simpl; intros [= -> -> E -> ->];
    try reflexivity; now rewrite E.
Qed.

Lemma blind_main (w : world) (api_key url : string) (clicked : bool) :
  blind (main strip w api_key url clicked) (main strip (silenced w) api_key url clicked).
Proof.
  unfold main.
  destruct (clicked && (negb (api_key =? "") && url_valid url)); [|apply blind_ret].
  apply blind_bind; [apply blind_emit|intros _].
  apply blind_bind; [apply blind_run_scraper|].
  intros [[| |]|]; apply blind_emit.
Qed.

(** What the worker writes to its standard error changes neither how a run
    ends nor any call it makes. *)
Lemma stderr_has_no_effect (w : world) (api_key url : string) (clicked : bool) :
  fst (main strip w api_key url clicked initial)
  = fst (main strip (silenced w) api_key url clicked initial)
  /\ calls (snd (main strip w api_key url clicked initial))
     = calls (snd (main strip (silenced w) api_key url clicked initial)).
Proof.
  destruct (blind_main w api_key url clicked initial initial eq_refl) as [E1 E2].
  split; [exact E1|].
  now apply unpiped_fields in E2.
Qed.

End Stderr.


(** C1, as stated, fails: a worker that has ended with code 0 while the
    read of its last output raises (a byte that is not UTF-8) is shown as
    failed, twice, and never as succeeded, and [run_scraper] returns 1; a
    worker that cannot be spawned is shown as failed twice as well. *)
Lemma exit_zero_shown_as_failure :
  let undecodable :=
    Exception "'utf-8' codec can't decode byte 0xff in position 0: invalid start byte" in
  let missing := Exception "[Errno 2] No such file or directory: 'node'" in
  let w0 := {| w_makedirs := None; w_schedule := None; w_start := None;
               w_spawn := None;
               w_ticks := [{| tk_events := []; tk_stderr := [];
                              tk_status := Some 0%Z;
                              tk_readline := inl undecodable |}] |} in
  let w1 := {| w_makedirs := None; w_schedule := None; w_start := None;
               w_spawn := Some missing; w_ticks := [] |} in
  let run0 := main (fun s => s) w0 "key" "https://example.com" true initial in
  let run1 := main (fun s => s) w1 "key" "https://example.com" true initial in
  (fst run0 = Ok tt
   /\ fst (run_scraper (fun s => s) w0 "https://example.com"
                       (snd (save_env_vars "key" initial))) = Ok (Some 1%Z)
   /\ indications (snd run0)
      = [st_error ("Error running scraper: " ++ str undecodable);
         st_error "❌ There was an error during scraping"])
  /\ (fst run1 = Ok tt
      /\ indications (snd run1)
         = [st_error ("Error running scraper: " ++ str missing);
            st_error "❌ There was an error during scraping"]).
Proof. cbv zeta; repeat split. Qed.

(** C1, amended: once the button is live and pressed, [main] ends every
    run that returns with one indication of its own, chosen by the value
    returned; when no exception is raised inside [run_scraper] and the loop
    finds the worker ended with a code, [run_scraper] returns that code and
    the run makes exactly one indication in all: the success one if the
    code is 0, the failure one otherwise; when an exception is raised
    inside [run_scraper], it returns 1 and the run makes two indications,
    both of failure: the one of [run_scraper], then the one of [main]. *)
Theorem one_terminal_indication (strip : string -> string) (w : world)
        (api_key url : string) :
  api_key <> "" -> url_valid url = true ->
  let st0 := snd (save_env_vars api_key initial) in
  (forall result st1,
     run_scraper strip w url st0 = (Ok result, st1) ->
     main strip w api_key url true initial
     = (Ok tt, snd (emit (terminal result) st1)))
  /\ (forall code,
        worker_exits w code ->
        fst (run_scraper strip w url st0) = Ok (Some code)
        /\ fst (main strip w api_key url true initial) = Ok tt
        /\ indications (snd (main strip w api_key url true initial))
           = [if (code =? 0)%Z
              then st_success "✅ Scraping completed successfully!"
              else st_error "❌ There was an error during scraping"])
  /\ (forall e,
        fails w e ->
        fst (run_scraper strip w url st0) = Ok (Some 1%Z)
        /\ fst (main strip w api_key url true initial) = Ok tt
        /\ indications (snd (main strip w api_key url true initial))
           = [st_error ("Error running scraper: " ++ str e);
              st_error "❌ There was an error during scraping"]).
Proof.
  intros K V st0.
  assert (save_env_vars api_key initial = (Ok tt, st0)) as E0 by reflexivity.
  split; [|split].
  - intros result st1 E.
    rewrite (main_started strip w api_key url initial K V).
    rewrite (bind_ok _ _ _ _ _ E0), (bind_ok _ _ _ _ _ E).
    reflexivity.
  - intros code X.
    destruct (body_exits strip w url st0 code X) as (st1 & E & _ & _ & I).
    apply run_scraper_ok in E.
    rewrite (main_started strip w api_key url initial K V).
    rewrite (bind_ok _ _ _ _ _ E0), (bind_ok _ _ _ _ _ E), E.
    split; [reflexivity|split; [reflexivity|]].
    unfold indications; simpl; rewrite filter_app.
    fold (indications st1); rewrite I; simpl.
    destruct code; reflexivity.
  - intros e F.
    destruct (body_fails strip w url st0 e F) as (s1 & E & I1 & _).
    apply run_scraper_caught in E.
    rewrite (main_started strip w api_key url initial K V).
    rewrite (bind_ok _ _ _ _ _ E0), (bind_ok _ _ _ _ _ E), E.
    split; [reflexivity|split; [reflexivity|]].
    unfold indications, reported; simpl; rewrite !filter_app.
    fold (indications s1); rewrite I1; reflexivity.
Qed.

Lemma one_terminal_indication_witness :
  indications
    (snd (main (fun s => s) (plain_exit 0) "key" "https://example.com" true initial))
  = [st_success "✅ Scraping completed successfully!"]
  /\ indications
       (snd (main (fun s => s) (plain_exit 3) "key" "https://example.com" true initial))
     = [st_error "❌ There was an error during scraping"].
Proof.
  assert (forall code, worker_exits (plain_exit code) code) as X.
  { intros code; split; [repeat split|].
    exists [], {| tk_events := []; tk_stderr := []; tk_status := Some code;
                  tk_readline := inr "" |}, [].
    repeat split. }
  split.
  - refine (proj2 (proj2 (proj1 (proj2 (one_terminal_indication (fun s => s)
              (plain_exit 0) "key" "https://example.com" _ _)) 0%Z (X 0%Z))));
      [discriminate|reflexivity].
  - refine (proj2 (proj2 (proj1 (proj2 (one_terminal_indication (fun s => s)
              (plain_exit 3) "key" "https://example.com" _ _)) 3%Z (X 3%Z))));
      [discriminate|reflexivity].
Defined.

(** C3, on the code: when the body fails once the watcher has started (the
    spawn of the worker fails, or the loop raises), [run_scraper] returns 1
    with the observer thread still running, and, for a failure in the
    loop, with the worker not collected: no way out through the handler of
    the [try] stops the one or waits for the other. *)
Theorem observer_left_running_on_failure (strip : string -> string) (w : world)
        (e : exn) (url : string) (st : state) :
  w_makedirs w = None -> w_schedule w = None -> w_start w = None ->
  fails w e ->
  fst (run_scraper strip w url st) = Ok (Some 1%Z)
  /\ observer_held (snd (run_scraper strip w url st)) = true
  /\ (w_spawn w = None -> process_held (snd (run_scraper strip w url st)) = true).
Proof.
  intros H1 H2 H3 F.
  destruct (body_fails strip w url st e F) as (s1 & E & _ & O & P).
  rewrite (run_scraper_caught strip w url st s1 e E).
  split; [reflexivity|split].
  - unfold observer_held, reported; simpl; now rewrite (O H1 H2 H3).
  - intros H4; unfold process_held, reported; simpl.
    apply P; repeat split; assumption.
Qed.

Lemma observer_left_running_on_failure_witness :
  let w := {| w_makedirs := None; w_schedule := None; w_start := None;
              w_spawn := Some (Exception "[Errno 2] No such file or directory: 'node'");
              w_ticks := [] |} in
  fst (run_scraper (fun s => s) w "https://example.com" initial) = Ok (Some 1%Z)
  /\ observer_held (snd (run_scraper (fun s => s) w "https://example.com" initial))
     = true.
Proof.
  cbv zeta.
  set (e := Exception "[Errno 2] No such file or directory: 'node'").
  set (w := {| w_makedirs := None; w_schedule := None; w_start := None;
               w_spawn := Some e; w_ticks := [] |}).
  destruct (observer_left_running_on_failure (fun s => s) w e
              "https://example.com" initial eq_refl eq_refl eq_refl
              (fails_spawn w e eq_refl eq_refl eq_refl eq_refl)) as (R & O & _).
  exact (conj R O).
Defined.

(** C5, on the code: what the worker writes to its standard error changes
    neither how a run ends nor any call it makes; so for a worker that
    writes a line there and ends with code 0, the line is still in the
    pipe, unread, when the run is over, and no call shows it. *)
Theorem stderr_is_never_read (strip : string -> string) (w : world)
        (api_key url : string) (clicked : bool) :
  (fst (main strip w api_key url clicked initial)
   = fst (main strip (silenced w) api_key url clicked initial)
   /\ calls (snd (main strip w api_key url clicked initial))
      = calls (snd (main strip (silenced w) api_key url clicked initial)))
  /\ (let w1 := {| w_makedirs := None; w_schedule := None; w_start := None;
                   w_spawn := None;
                   w_ticks := [{| tk_events := []; tk_stderr := ["Error: boom"];
                                  tk_status := Some 0%Z;
                                  tk_readline := inr "" |}] |} in
      let run := main (fun s => s) w1 "key" "https://example.com" true initial in
      fst run = Ok tt
      /\ calls (snd run)
         = [env_write ("CODEGPT_API_KEY=key" ++ Str.nl
                       ++ "AGENT_ID=403d73ce-4400-4020-8164-d2bbef542186" ++ Str.nl);
            files_empty;
            st_success "✅ Scraping completed successfully!"]
      /\ option_map stderr_unread (process (snd run)) = Some ["Error: boom"]).
Proof.
  split; [apply stderr_has_no_effect|].
  cbv zeta; repeat split.
Qed.

(** C10: every exception that leaves the body of [run_scraper] is caught
    and 1 is returned, whatever the exception; a failure of the creation of
    the directory, of the start of the watcher, of the spawn of the worker
    or of the loop is such an exception; the value returned is the one of
    a run whose worker ends with code 1, and of any other failed run. *)
Theorem every_failure_returns_one (strip : string -> string) (w : world)
        (url : string) (st : state) :
  (forall e st',
     run_scraper_body strip w url st = (Raise e, st') ->
     run_scraper strip w url st = (Ok (Some 1%Z), reported e st'))
  /\ (forall e,
        fails w e ->
        (exists st', run_scraper_body strip w url st = (Raise e, st'))
        /\ fst (run_scraper strip w url st) = Ok (Some 1%Z)
        /\ fst (run_scraper strip (plain_exit 1) url st)
           = fst (run_scraper strip w url st)
        /\ (forall w' e',
              fails w' e' ->
              fst (run_scraper strip w' url st) = fst (run_scraper strip w url st)))
  /\ (forall e, fst (run_scraper strip w url st) <> Raise e).
Proof.
  split; [|split].
  - intros e st'; apply run_scraper_caught.
  - intros e F.
    destruct (body_fails strip w url st e F) as (s1 & E & _).
    rewrite (run_scraper_caught strip w url st s1 e E).
    split; [now exists s1|split; [reflexivity|split; [reflexivity|]]].
    intros w' e' F'.
    destruct (body_fails strip w' url st e' F') as (s1' & E' & _).
    now rewrite (run_scraper_caught strip w' url st s1' e' E').
  - intros e; unfold run_scraper, try_except.
    destruct (run_scraper_body strip w url st) as [[r|e'|] s1]; discriminate.
Qed.

Lemma every_failure_returns_one_witness :
  let w := {| w_makedirs := Some (Exception "[Errno 13] Permission denied: 'out'");
              w_schedule := None; w_start := None; w_spawn := None;
              w_ticks := [] |} in
  fst (run_scraper (fun s => s) w "https://example.com" initial) = Ok (Some 1%Z).
Proof.
  cbv zeta.
  refine (proj1 (proj2 (proj1 (proj2 (every_failure_returns_one _ _ _ _))
            (Exception "[Errno 13] Permission denied: 'out'") _))).
  now apply fails_makedirs.
Defined.

(** * Further properties *)

Section MoreStrings.

Lemma contains_char_false (c : ascii) (s : string) :
  contains_char c s = false <-> forall a, In a (Str.chars s) -> a <> c.
Proof.
  induction s as [|x s IH]; simpl.
  - split; [tauto|reflexivity].
  - rewrite orb_false_iff, IH; split.
    + intros [Hx H] a [<-|Ha]; [|exact (H a Ha)].
      intros ->; rewrite Ascii.eqb_refl in Hx; discriminate.
    + intros H; split; [|intros a Ha; apply H; now right].
      destruct (Ascii.eqb_spec x c) as [->|N]; [|reflexivity].
      exfalso; exact (H c (or_introl eq_refl) eq_refl).
Qed.

(** A text without the separator is its own single field. *)
Lemma split_no_sep (s : string) (sep : ascii) :
  contains_char sep s = false -> Str.split s sep = [s].
Proof.
  induction s as [|x s IH]; simpl; [reflexivity|].
  rewrite orb_false_iff; intros [Hx H].
  now rewrite Hx, (IH H).
Qed.

(** The first field of [s] followed by a separator is [s]. *)
Lemma split_head_app (s p : string) (sep : ascii) :
  contains_char sep s = false ->
  hd "" (Str.split (s ++ String sep p) sep) = s.
Proof.
  induction s as [|x s IH]; simpl.
  - intros _; now rewrite Ascii.eqb_refl.
  - rewrite orb_false_iff; intros [Hx H].
    rewrite Hx.
    specialize (IH H).
    destruct (Str.split (s ++ String sep p) sep) as [|w ws]; simpl in *; congruence.
Qed.

Lemma split_head_path_like (s rest : string) :
  contains_char "/" s = false -> path_like rest ->
  hd "" (Str.split (s ++ rest) "/") = s.
Proof.
  intros H [->|[p ->]].
  - now rewrite append_nil_r, split_no_sep.
  - now apply split_head_app.
Qed.

Lemma prefix_app (a b : string) :
  String.prefix a b = true -> exists r, b = a ++ r.
Proof.
  revert b; induction a as [|x a IH]; intros b.
  - intros _; now exists b.
  - destruct b as [|y b]; [discriminate|].
    change (String.prefix (String x a) (String y b))
      with (if ascii_dec x y then String.prefix a b else false).
    destruct (ascii_dec x y) as [->|_]; [|discriminate].
    intros H; destruct (IH b H) as [r ->]; now exists r.
Qed.

(** [s.endswith(p)] holds exactly when [s] is some text followed by [p]. *)
Lemma endswith_app (a p : string) : Str.endswith (a ++ p) p = true.
Proof.
  unfold Str.endswith; rewrite length_append.
  apply andb_true_intro; split; [apply Nat.leb_le; lia|].
  replace (String.length a + String.length p - String.length p)%nat
    with (String.length a) by lia.
  rewrite substring_skip, substring_all; apply String.eqb_refl.
Qed.

Lemma substring_split (n : nat) (s : string) :
  (n <= String.length s)%nat ->
  s = substring 0 n s ++ substring n (String.length s - n) s.
Proof.
  revert s; induction n as [|n IH]; intros s H.
  - simpl; rewrite Nat.sub_0_r, substring_all.
    now destruct s.
  - destruct s as [|c s]; simpl in *; [lia|].
    f_equal; apply IH; lia.
Qed.

Lemma endswith_inv (s p : string) :
  Str.endswith s p = true -> exists a, s = a ++ p.
Proof.
  unfold Str.endswith; intros H.
  apply andb_prop in H; destruct H as [L E].
  apply Nat.leb_le in L; apply String.eqb_eq in E.
  exists (substring 0 (String.length s - String.length p) s).
  rewrite (substring_split (String.length s - String.length p) s) at 1 by lia.
  f_equal.
  replace (String.length s - (String.length s - String.length p))%nat
    with (String.length p) by lia.
  exact E.
Qed.

Lemma endswith_tail (c : ascii) (s p : string) :
  Str.endswith (String c s) p = false -> s <> "" \/ p = "" -> Str.endswith s p = false.
Proof.
  intros H _.
  destruct (Str.endswith s p) eqn:E; [|reflexivity].
  apply endswith_inv in E; destruct E as [a ->].
  change (String c (a ++ p)) with (String c a ++ p) in H.
  now rewrite endswith_app in H.
Qed.

End MoreStrings.

Section TargetMore.

(** No occurrence of a scheme marker begins inside a host that is not the
    marker's own beginning. *)
Lemma no_marker_in_host (marker tl s rest : string) :
  contains_char "/" marker = false -> contains_char "/" s = false ->
  path_like rest -> s <> marker ->
  String.prefix (marker ++ String "/" tl) (s ++ rest) = false.
Proof.
  intros Hm Hs Hr N.
  destruct (String.prefix (marker ++ String "/" tl) (s ++ rest)) eqn:E;
    [|reflexivity].
  apply prefix_app in E; destruct E as [r E].
  pose proof (split_head_path_like s rest Hs Hr) as H.
  rewrite E, append_assoc in H.
  change (String "/" tl ++ r) with (String "/" (tl ++ r)) in H.
  rewrite (split_head_app marker (tl ++ r) "/" Hm) in H.
  congruence.
Qed.

Lemma replace_keeps_host (marker tl s rest : string) :
  contains_char "/" marker = false -> contains_char "/" s = false ->
  path_like rest -> (forall a, s <> a ++ marker) ->
  Str.replace_from (marker ++ String "/" tl) "" (s ++ rest) 0
  = s ++ Str.replace_from (marker ++ String "/" tl) "" rest 0.
Proof.
  intros Hm Hs Hr; induction s as [|c s IH]; intros N; [reflexivity|].
  simpl in Hs; apply orb_false_iff in Hs; destruct Hs as [Hc Hs].
  change (String c s ++ rest) with (String c (s ++ rest)).
  cbn [Str.replace_from].
  change (String c (s ++ rest)) with (String c s ++ rest).
  rewrite (no_marker_in_host marker tl (String c s) rest Hm); trivial.
  - simpl; f_equal; apply IH; [exact Hs|].
    intros a E; apply (N (String c a)); simpl; now rewrite E.
  - simpl; now rewrite Hc, Hs.
  - exact (N "").
Qed.

Lemma not_ending_in_colon (s a m : string) :
  Str.endswith s ":" = false -> s <> a ++ m ++ ":".
Proof.
  intros H E; rewrite <- append_assoc in E.
  now rewrite E, endswith_app in H.
Qed.

Lemma replace_https_path_like (rest : string) :
  path_like rest ->
  path_like (Str.replace_from "https://" "" rest 0).
Proof.
  intros [->|[p ->]]; [now left|right].
  eexists; cbn; reflexivity.
Qed.

Lemma replace_http_path_like (rest : string) :
  path_like rest ->
  path_like (Str.replace_from "http://" "" rest 0).
Proof.
  intros [->|[p ->]]; [now left|right].
  eexists; cbn; reflexivity.
Qed.

Lemma replace_https_at_https (x : string) :
  Str.replace_from "https://" "" ("https://" ++ x) 0
  = Str.replace_from "https://" "" x 0.
Proof. destruct x; reflexivity. Qed.

Lemma replace_https_at_http (x : string) :
  Str.replace_from "https://" "" ("http://" ++ x) 0
  = "http://" ++ Str.replace_from "https://" "" x 0.
Proof. reflexivity. Qed.

Lemma replace_http_at_http (x : string) :
  Str.replace_from "http://" "" ("http://" ++ x) 0
  = Str.replace_from "http://" "" x 0.
Proof. destruct x; reflexivity. Qed.

(** What is left of a URL made of a scheme, a host and a path. *)
Lemma strip_schemes_plain (scheme host rest : string) :
  scheme = "http://" \/ scheme = "https://" ->
  contains_char "/" host = false -> Str.endswith host ":" = false ->
  path_like rest ->
  exists rest', strip_schemes (scheme ++ host ++ rest) = host ++ rest'
                /\ path_like rest'.
Proof.
  intros S Hh Hc Hr.
  assert (forall a, host <> a ++ "https:") as N1
      by (intros a; apply (not_ending_in_colon host a "https" Hc)).
  assert (forall a, host <> a ++ "http:") as N2
      by (intros a; apply (not_ending_in_colon host a "http" Hc)).
  pose proof (replace_keeps_host "https:" "/" host rest eq_refl Hh Hr N1) as R1.
  pose proof (replace_https_path_like rest Hr) as Hr1.
  pose proof (replace_keeps_host "http:" "/" host _ eq_refl Hh Hr1 N2) as R2.
  change ("https:" ++ String "/" "/") with "https://" in R1.
  change ("http:" ++ String "/" "/") with "http://" in R2.
  exists (Str.replace_from "http://" "" (Str.replace_from "https://" "" rest 0) 0).
  split; [|now apply replace_http_path_like].
  unfold strip_schemes, Str.replace.
  destruct S as [->| ->].
  - now rewrite replace_https_at_http, R1, replace_http_at_http, R2.
  - now rewrite replace_https_at_https, R1, R2.
Qed.

End TargetMore.

(** X1: for a URL made of [http://] or [https://], a host that holds no
    ['/'] and does not end in [':'], and then nothing or a path that begins
    with ['/'], the derived domain is the host, port included, whatever the
    path holds (scheme markers too). *)
Theorem domain_of_plain_url (scheme host rest : string) :
  scheme = "http://" \/ scheme = "https://" ->
  contains_char "/" host = false -> Str.endswith host ":" = false ->
  path_like rest ->
  domain (scheme ++ host ++ rest) = host.
Proof.
  intros S Hh Hc Hr.
  destruct (strip_schemes_plain scheme host rest S Hh Hc Hr) as (rest' & E & Hr').
  unfold domain; rewrite E.
  now apply split_head_path_like.
Qed.

Lemma domain_of_plain_url_witness :
  domain ("https://" ++ "localhost:3000" ++ "/docs/index.html?u=http://x/")
  = "localhost:3000".
Proof.
  apply domain_of_plain_url.
  - now right.
  - reflexivity.
  - reflexivity.
  - right; eexists; reflexivity.
Defined.

Section Paths.

(** No field of a split holds the separator. *)
Lemma split_fields (s : string) (sep : ascii) :
  Forall (fun f => contains_char sep f = false) (Str.split s sep).
Proof.
  induction s as [|c s IH]; simpl; [repeat constructor|].
  destruct (Ascii.eqb c sep) eqn:E; [constructor; [reflexivity|exact IH]|].
  destruct (Str.split s sep) as [|w ws]; [repeat constructor; simpl; now rewrite E|].
  inversion IH as [|? ? Hw Hws]; subst.
  constructor; [simpl; now rewrite E, Hw|exact Hws].
Qed.

Lemma last_in {A : Type} (l : list A) (d : A) : l <> [] -> In (last l d) l.
Proof.
  induction l as [|x l IH]; [congruence|intros _].
  destruct l as [|y l]; [now left|].
  right; apply IH; discriminate.
Qed.

Lemma basename_no_slash (p : string) : contains_char "/" (Path.basename p) = false.
Proof.
  unfold Path.basename.
  pose proof (split_fields p "/") as F; rewrite Forall_forall in F.
  apply F, last_in, split_not_nil.
Qed.

(** Appending a text without separator extends the last field. *)
Lemma split_app_no_sep (a t : string) (sep : ascii) :
  contains_char sep t = false ->
  Str.split (a ++ t) sep
  = app (removelast (Str.split a sep)) [last (Str.split a sep) "" ++ t].
Proof.
  intros Ht; induction a as [|c a IH].
  - simpl; now apply split_no_sep.
  - change (String c a ++ t) with (String c (a ++ t)).
    cbn [Str.split]; rewrite IH.
    pose proof (split_not_nil a sep) as N.
    destruct (Str.split a sep) as [|w ws]; [congruence|].
    destruct (Ascii.eqb c sep); destruct ws as [|w' ws]; reflexivity.
Qed.

Lemma basename_app_no_slash (a t : string) :
  contains_char "/" t = false -> Path.basename (a ++ t) = Path.basename a ++ t.
Proof.
  intros Ht; unfold Path.basename.
  now rewrite (split_app_no_sep a t "/" Ht), last_last.
Qed.

Lemma basename_dir (a : string) : Path.basename (a ++ "/") = "".
Proof.
  unfold Path.basename.
  enough (exists w l, Str.split (a ++ "/") "/" = app (w :: l) [""])
    as (w & l & ->) by apply last_last.
  induction a as [|c a (w & l & IH)].
  - now exists "", [].
  - change (String c a ++ "/") with (String c (a ++ "/")).
    cbn [Str.split]; rewrite IH.
    destruct (Ascii.eqb c "/").
    + now exists "", (w :: l).
    + now exists (String c w), l.
Qed.

Lemma starts_with_slash (b : string) :
  contains_char "/" b = false -> Str.startswith b "/" = false.
Proof.
  destruct b as [|c b]; [reflexivity|intros H].
  unfold Str.startswith.
  change (String.prefix "/" (String c b))
    with (if ascii_dec "/" c then String.prefix "" b else false).
  destruct (ascii_dec "/" c) as [<-|_]; [|reflexivity].
  cbn in H; discriminate.
Qed.

End Paths.

(** X2: for every URL the output directory is [out/] followed by the
    domain, a direct child of [out], and its base name is the domain. *)
Theorem output_dir_under_out (url : string) :
  Path.join "out" (domain url) = "out/" ++ domain url
  /\ Path.basename (Path.join "out" (domain url)) = domain url.
Proof.
  assert (contains_char "/" (domain url) = false) as H
      by (apply contains_char_false; intros a; apply split_head_no_sep).
  assert (Path.join "out" (domain url) = "out/" ++ domain url) as E
      by (unfold Path.join; now rewrite (starts_with_slash _ H)).
  split; [exact E|rewrite E].
  rewrite (basename_app_no_slash "out/" _ H); reflexivity.
Qed.

(** X3: the base name of a path made by joining a directory and a file
    name that holds no ['/'] is that file name: a file the worker writes
    into the output directory is keyed by its own name. *)
Theorem basename_of_join (dir name : string) :
  contains_char "/" name = false ->
  Path.basename (Path.join dir name) = name.
Proof.
  intros H; unfold Path.join; rewrite (starts_with_slash _ H).
  assert (Path.basename name = name) as B
      by (unfold Path.basename; now rewrite split_no_sep).
  destruct (String.eqb_spec dir "") as [->|_]; [exact B|].
  cbn [orb].
  destruct (Str.endswith dir "/") eqn:E.
  - apply endswith_inv in E; destruct E as [a ->].
    now rewrite (basename_app_no_slash _ name H), basename_dir.
  - rewrite <- append_assoc.
    now rewrite (basename_app_no_slash _ name H), basename_dir.
Qed.

Lemma basename_of_join_witness :
  Path.basename (Path.join "out/example.com" "page-1.txt") = "page-1.txt".
Proof. apply basename_of_join; reflexivity. Defined.

Section WatcherMore.

(** What one delivered event does to the mapping and to the output. *)
Lemma dispatch_effect (d : delivery) (w : watcher) :
  files_content (wt_self (snd (dispatch d w)))
  = match stored_by d with
    | Some (k, c) => Dict.set (files_content (wt_self w)) k c
    | None => files_content (wt_self w)
    end
  /\ wt_stdout (snd (dispatch d w)) = app (wt_stdout w) (printed_by d)
  /\ output_dir (wt_self (snd (dispatch d w))) = output_dir (wt_self w).
Proof.
  unfold dispatch, stored_by, printed_by.
  destruct (ev_type (dl_event d));
    try (simpl; rewrite app_nil_r; repeat split; now destruct (dl_read d)).
  destruct (qualifies (dl_event d)) eqn:Q, (dl_read d) as [e|content] eqn:R.
  - rewrite (on_modified_read_fails d w e Q R); simpl; auto.
  - rewrite (on_modified_read_ok d w content Q R); simpl.
    rewrite app_nil_r; auto.
  - rewrite (on_modified_ignores d w Q); simpl; rewrite app_nil_r; auto.
  - rewrite (on_modified_ignores d w Q); simpl; rewrite app_nil_r; auto.
Qed.

Lemma after_events_cons (d : delivery) (ds : list delivery) (w : watcher) :
  after_events (d :: ds) w = after_events ds (snd (dispatch d w)).
Proof. unfold after_events; now rewrite deliver_cons. Qed.

Lemma qualifying_key (ev : event) :
  qualifies ev = true ->
  contains_char "/" (Path.basename (src_path ev)) = false
  /\ Str.endswith (Path.basename (src_path ev)) ".txt" = true.
Proof.
  unfold qualifies; intros Q; apply andb_prop in Q; destruct Q as [_ E].
  split; [apply basename_no_slash|].
  apply endswith_inv in E; destruct E as [a ->].
  rewrite (basename_app_no_slash a ".txt" eq_refl).
  apply endswith_app.
Qed.

End WatcherMore.

(** X4: whatever events a fresh handler is given, every filename it
    stores holds no ['/'] and ends in [.txt]. *)
Theorem stored_names_are_text_file_names (dir : string) (ds : list delivery) :
  Forall (fun name => contains_char "/" name = false
                      /\ Str.endswith name ".txt" = true)
         (map fst (files_content
                     (wt_self (after_events ds
                                 {| wt_self := FileHandler_init dir;
                                    wt_stdout := [] |})))).
Proof.
  set (P := fun name => contains_char "/" name = false
                        /\ Str.endswith name ".txt" = true).
  assert (forall w, Forall P (map fst (files_content (wt_self w))) ->
                    Forall P (map fst (files_content (wt_self (after_events ds w)))))
    as H; [|apply H; constructor].
  induction ds as [|d ds IH]; intros w Hw; [exact Hw|].
  rewrite after_events_cons; apply IH.
  destruct (dispatch_effect d w) as (-> & _).
  unfold stored_by.
  destruct (ev_type (dl_event d)), (dl_read d) as [e|content]; try exact Hw.
  destruct (qualifies (dl_event d)) eqn:Q; [|exact Hw].
  rewrite Forall_forall in *; intros k Hk.
  apply set_keys in Hk; destruct Hk as [->|Hk]; [|now apply Hw].
  now apply qualifying_key.
Qed.

(** X5: after any events, the mapping holds under a filename the text of
    the last modification event of a [.txt] file with that base name whose
    read succeeded, and what it held before if there was none. *)
Theorem latest_content_is_stored (ds : list delivery) (w : watcher) (name : string) :
  Dict.get (files_content (wt_self (after_events ds w))) name
  = match latest name ds with
    | Some content => Some content
    | None => Dict.get (files_content (wt_self w)) name
    end.
Proof.
  revert w; induction ds as [|d ds IH]; intros w; [reflexivity|].
  rewrite after_events_cons, IH; cbn [latest].
  destruct (latest name ds) as [c|]; [reflexivity|].
  destruct (dispatch_effect d w) as (-> & _).
  destruct (stored_by d) as [[k c]|]; [|reflexivity].
  destruct (String.eqb_spec k name) as [->|N].
  - apply get_set_same.
  - apply get_set_other; congruence.
Qed.

(** X6: a filename the mapping holds stays in it whatever events follow:
    no event, a deletion included, removes an entry. *)
Theorem stored_file_is_never_dropped (ds : list delivery) (w : watcher)
        (name content : string) :
  Dict.get (files_content (wt_self w)) name = Some content ->
  exists content',
    Dict.get (files_content (wt_self (after_events ds w))) name = Some content'.
Proof.
  revert w content; induction ds as [|d ds IH]; intros w content H.
  - now exists content.
  - rewrite after_events_cons.
    destruct (dispatch_effect d w) as (E & _).
    destruct (stored_by d) as [[k c]|].
    + destruct (String.eqb_spec k name) as [->|N].
      * apply (IH _ c); rewrite E; apply get_set_same.
      * apply (IH _ content); rewrite E, get_set_other; congruence.
    + apply (IH _ content); now rewrite E.
Qed.

Lemma stored_file_is_never_dropped_witness :
  let w := {| wt_self := {| output_dir := "out/example.com";
                            files_content := [("a.txt", "X")] |};
              wt_stdout := [] |} in
  let deleted := {| dl_event := {| ev_type := EVENT_TYPE_DELETED;
                                   is_directory := false;
                                   src_path := "out/example.com/a.txt" |};
                    dl_read := inl (Exception "[Errno 2] No such file or directory") |} in
  exists content',
    Dict.get (files_content (wt_self (after_events [deleted] w))) "a.txt"
    = Some content'.
Proof.
  cbv zeta.
  refine (stored_file_is_never_dropped _ _ "a.txt" "X" _); reflexivity.
Defined.

(** X7: handling any events never raises, leaves [output_dir] as it is, and
    prints exactly one [Error reading file] line for each failed read, in
    the order of the events, and nothing else. *)
Theorem handler_prints_failed_reads_only (ds : list delivery) (w : watcher) :
  fst (deliver ds w) = Ok tt
  /\ wt_stdout (after_events ds w) = app (wt_stdout w) (flat_map printed_by ds)
  /\ output_dir (wt_self (after_events ds w)) = output_dir (wt_self w).
Proof.
  revert w; induction ds as [|d ds IH]; intros w.
  - simpl; rewrite app_nil_r; auto.
  - rewrite after_events_cons, deliver_cons.
    destruct (IH (snd (dispatch d w))) as (R & O & D).
    destruct (dispatch_effect d w) as (_ & O' & D').
    split; [exact R|split].
    + rewrite O, O'; simpl; now rewrite app_assoc.
    + now rewrite D, D'.
Qed.

Section DownloadMore.

Local Open Scope N_scope.
Import Base64.

Lemma get_in_chars (n : nat) (s : string) (c : ascii) :
  String.get n s = Some c -> In c (Str.chars s).
Proof.
  revert n; induction s as [|x s IH]; intros n; [discriminate|].
  destruct n as [|n]; simpl.
  - intros [= ->]; now left.
  - intros H; right; exact (IH n H).
Qed.

(** Every byte [enc6] yields is a character of the alphabet or the padding. *)
Lemma enc6_in_alphabet (v : N) :
  In (ascii_of_N (enc6 v)) (Str.chars alphabet) \/ ascii_of_N (enc6 v) = "="%char.
Proof.
  unfold enc6.
  destruct (String.get (N.to_nat v) alphabet) as [c|] eqn:G; [left|now right].
  rewrite ascii_N_embedding; exact (get_in_chars _ _ _ G).
Qed.

Lemma chars_decode (bs : list N) : Str.chars (decode bs) = map ascii_of_N bs.
Proof. unfold decode, Str.chars; apply list_ascii_of_string_of_list_ascii. Qed.

Lemma length_decode (bs : list N) : String.length (decode bs) = length bs.
Proof.
  unfold decode; induction bs as [|b bs IH]; simpl; [reflexivity|now rewrite IH].
Qed.

Lemma length_encode (s : string) : length (encode s) = String.length s.
Proof.
  unfold encode, Str.chars; induction s as [|c s IH]; simpl;
    [reflexivity|now rewrite IH].
Qed.

(** The payload of a link is the base64 text of the content. *)
Lemma payload_of_download_button (content filename button_text : string) :
  payload_of (download_button content filename button_text)
  = decode (b64encode (encode content)).
Proof.
  unfold download_button; rewrite payload_of_link.
  apply up_to_quote_decode, b64encode_plain, encode_bytes.
Qed.

(** The content of a link is recovered from it. *)
Lemma downloaded_download_button (content filename button_text : string) :
  downloaded (download_button content filename button_text) = Some content.
Proof.
  unfold downloaded; rewrite payload_of_download_button.
  pose proof (b64encode_plain _ (encode_bytes content)) as Hp.
  rewrite (encode_decode _ (plain_bytes _ Hp)).
  rewrite (b64decode_b64encode _ (encode_bytes content)); simpl.
  now rewrite decode_encode.
Qed.

End DownloadMore.

(** X8: the payload of a download link has four characters for every
    three bytes of the encoded content, the last group padded: its length
    is 4 * ceil(n / 3) for n bytes. *)
Theorem payload_length (content filename button_text : string) :
  String.length (payload_of (download_button content filename button_text))
  = (4 * ((length (encode content) + 2) / 3))%nat.
Proof.
  rewrite payload_of_download_button, length_decode.
  generalize (encode content) as bs; intros bs.
  induction bs as [|a|a b|a b c rest IH] using list_ind3; try reflexivity.
  cbn [Base64.b64encode length]; rewrite IH.
  replace (S (S (S (length rest))) + 2)%nat with (length rest + 2 + 1 * 3)%nat by lia.
  rewrite Nat.div_add by discriminate; lia.
Qed.

(** X9: the payload of a download link holds only characters of the
    base64 alphabet and the padding [=], whatever the content: no
    character of the content reaches the link as it is. *)
Theorem payload_alphabet (content filename button_text : string) :
  Forall (fun c => In c (Str.chars Base64.alphabet) \/ c = "="%char)
         (Str.chars (payload_of (download_button content filename button_text))).
Proof.
  rewrite payload_of_download_button, chars_decode.
  generalize (encode content) as bs; intros bs.
  assert (ascii_of_N Base64.pad = "="%char) as P by reflexivity.
  induction bs as [|a|a b|a b c rest IH] using list_ind3;
    cbn [Base64.b64encode map];
    repeat (apply Forall_cons; [first [now right|apply enc6_in_alphabet]|]);
    first [apply Forall_nil|exact IH].
Qed.

(** X10: links made for different contents differ, whatever the file
    names and the labels. *)
Theorem distinct_contents_distinct_links
        (content1 content2 filename1 filename2 text1 text2 : string) :
  content1 <> content2 ->
  download_button content1 filename1 text1
  <> download_button content2 filename2 text2.
Proof.
  intros N E; apply N.
  apply (f_equal downloaded) in E.
  rewrite !downloaded_download_button in E.
  now injection E.
Qed.

Lemma distinct_contents_distinct_links_witness :
  download_button "X" "scraped_content_example.com.txt" "Download"
  <> download_button "Y" "scraped_content_example.com.txt" "Download".
Proof. apply distinct_contents_distinct_links; discriminate. Defined.

Section RunMore.

Variable strip : string -> string.

(** Lines 74-88 append the calls for the mapping and touch nothing else. *)
Lemma update_display_effect (dom : string) (st : state) (h : FileHandler) :
  event_handler st = Some h ->
  update_display dom st
  = (Ok tt,
     {| event_handler := event_handler st; observer := observer st;
        process := process st; stdout := stdout st;
        calls := app (calls st) (display_calls dom (files_content h)) |}).
Proof.
  intros Hh; unfold update_display, display_calls.
  assert ((fun st0 : state =>
             match event_handler st0 with
             | Some h0 => ret (files_content h0) st0
             | None => unbound "event_handler" st0
             end) st = (Ok (files_content h), st)) as E
      by (cbv beta; now rewrite Hh).
  rewrite (bind_ok _ _ _ _ _ E).
  destruct st as [eh ob pr out cs]; simpl.
  destruct (Dict.truthy (files_content h)).
  - unfold bind, emit, modify; simpl; now rewrite <- app_assoc.
  - unfold ret; now rewrite app_nil_r.
Qed.

(** An iteration after which the loop goes on: what it leaves. *)
Lemma iteration_goes_on (dom : string) (t : tick) (st : state) (h : FileHandler) :
  draining st -> event_handler st = Some h -> goes_on t = true ->
  let h' := after_events (tk_events t) {| wt_self := h; wt_stdout := stdout st |} in
  exists st',
    (forall ticks, drain strip dom (t :: ticks) st = drain strip dom ticks st')
    /\ draining st'
    /\ event_handler st' = Some (wt_self h')
    /\ stdout st' = wt_stdout h'
    /\ calls st'
       = app (calls st)
             (app (line_calls strip t)
                  (display_calls dom (files_content (wt_self h')))).
Proof.
  intros (Ho & _ & (p & Hp & Hr)) Hh G h'.
  destruct st as [eh ob pr out cs]; simpl in Ho, Hp, Hh; subst eh ob pr.
  destruct p as [a r c u]; simpl in Hr; subst r.
  unfold goes_on in G; unfold line_calls.
  destruct (tk_readline t) as [e|output] eqn:R; [discriminate|].
  simpl in h'.
  set (st1 := {| event_handler := Some (wt_self h');
                 observer := Some ObserverRunning;
                 process := Some {| args := a; returncode := None;
                                    child_status := tk_status t;
                                    stderr_unread := app u (tk_stderr t) |};
                 stdout := wt_stdout h'; calls := cs |}).
  assert (readline t {| event_handler := Some h; observer := Some ObserverRunning;
                        process := Some {| args := a; returncode := None;
                                           child_status := c; stderr_unread := u |};
                        stdout := out; calls := cs |} = (Ok output, st1)) as E1
      by (unfold readline, bind, modify; rewrite R; reflexivity).
  destruct (String.eqb_spec output "") as [->|N].
  - simpl in G; destruct (tk_status t) eqn:S; [discriminate|].
    assert (poll st1 = (Ok None, st1)) as E2
        by reflexivity.
    pose proof (update_display_effect dom st1 (wt_self h') eq_refl) as E3.
    eexists; split; [intros ticks|].
    + cbn [drain].
      rewrite (bind_ok _ _ _ _ _ E1).
      change ("" =? "") with true; cbv iota.
      rewrite (bind_ok _ _ _ _ _ (bind_ok _ _ _ _ _ E2)).
      cbn [is_not_None]; unfold ret at 1.
      rewrite (bind_ok _ _ st1 st1 tt eq_refl), (bind_ok _ _ _ _ _ E3).
      reflexivity.
    + unfold draining, st1; simpl; repeat split; eauto.
  - apply String.eqb_neq in N.
    set (st2 := snd (emit (status_write (strip output)) st1)).
    assert (emit (status_write (strip output)) st1 = (Ok tt, st2)) as E2
        by reflexivity.
    pose proof (update_display_effect dom st2 (wt_self h') eq_refl) as E3.
    eexists; split; [intros ticks|].
    + cbn [drain].
      rewrite (bind_ok _ _ _ _ _ E1), N.
      rewrite (bind_ok _ _ st1 st1 false eq_refl); cbv iota.
      rewrite (bind_ok _ _ _ _ _ E2), (bind_ok _ _ _ _ _ E3).
      reflexivity.
    + unfold draining, st2, st1; simpl; rewrite <- app_assoc.
      repeat split; eauto.
Qed.

Lemma after_events_app (ds1 ds2 : list delivery) (w : watcher) :
  after_events (app ds1 ds2) w = after_events ds2 (after_events ds1 w).
Proof.
  revert w; induction ds1 as [|d ds1 IH]; intros w; [reflexivity|].
  rewrite <- app_comm_cons, !after_events_cons; apply IH.
Qed.

Lemma watcher_eta (w : watcher) :
  {| wt_self := wt_self w; wt_stdout := wt_stdout w |} = w.
Proof. now destruct w. Qed.

(** Iterations after which the loop goes on: what they leave. *)
Lemma iterations_go_on (dom : string) (pre : list tick) (st : state)
      (h : FileHandler) :
  draining st -> event_handler st = Some h -> forallb goes_on pre = true ->
  let h0 := {| wt_self := h; wt_stdout := stdout st |} in
  exists st',
    (forall ticks, drain strip dom (app pre ticks) st = drain strip dom ticks st')
    /\ draining st'
    /\ event_handler st' = Some (wt_self (after_events (events_of pre) h0))
    /\ stdout st' = wt_stdout (after_events (events_of pre) h0)
    /\ calls st' = app (calls st) (loop_calls strip dom h0 pre).
Proof.
  revert st h; induction pre as [|t pre IH]; intros st h D Hh G h0.
  - exists st; simpl; rewrite app_nil_r; auto.
  - simpl in G; apply andb_prop in G; destruct G as [Gt G].
    destruct (iteration_goes_on dom t st h D Hh Gt)
      as (st1 & E1 & D1 & H1 & O1 & C1).
    fold h0 in H1, O1, C1.
    destruct (IH st1 _ D1 H1 G) as (st2 & E2 & D2 & H2 & O2 & C2).
    cbv zeta in H2, O2, C2; rewrite O1, watcher_eta in H2, O2, C2.
    exists st2; split; [|split; [exact D2|]].
    + intros ticks; rewrite <- app_comm_cons, E1; apply E2.
    + unfold events_of in *; cbn [flat_map loop_calls].
      rewrite after_events_app, H2, O2, C2, C1, <- !app_assoc; auto.
Qed.

(** The iteration in which the loop finds the worker ended: what it
    leaves. *)
Lemma iteration_ends (dom : string) (t : tick) (rest : list tick) (st : state)
      (h : FileHandler) (code : Z) :
  draining st -> event_handler st = Some h -> ends_with t code ->
  let h' := after_events (tk_events t) {| wt_self := h; wt_stdout := stdout st |} in
  exists st',
    drain strip dom (t :: rest) st = (Ok tt, st')
    /\ observer st' = Some ObserverRunning
    /\ (exists p, process st' = Some p /\ returncode p = Some code)
    /\ event_handler st' = Some (wt_self h')
    /\ calls st' = calls st.
Proof.
  intros (Ho & _ & (p & Hp & Hr)) Hh [R S] h'.
  destruct st as [eh ob pr out cs]; simpl in Ho, Hp, Hh; subst eh ob pr.
  destruct p as [a r c u]; simpl in Hr; subst r.
  simpl in h'.
  set (st1 := {| event_handler := Some (wt_self h');
                 observer := Some ObserverRunning;
                 process := Some {| args := a; returncode := None;
                                    child_status := Some code;
                                    stderr_unread := app u (tk_stderr t) |};
                 stdout := wt_stdout h'; calls := cs |}).
  assert (readline t {| event_handler := Some h; observer := Some ObserverRunning;
                        process := Some {| args := a; returncode := None;
                                           child_status := c; stderr_unread := u |};
                        stdout := out; calls := cs |} = (Ok "", st1)) as E1
      by (unfold readline, bind, modify; rewrite R; unfold st1; rewrite <- S;
          reflexivity).
  set (st2 := set_process
                (Some {| args := a; returncode := Some code;
                         child_status := Some code;
                         stderr_unread := app u (tk_stderr t) |}) st1).
  assert (poll st1 = (Ok (Some code), st2)) as E2 by reflexivity.
  exists st2; split.
  - cbn [drain].
    rewrite (bind_ok _ _ _ _ _ E1).
    change ("" =? "") with true; cbv iota.
    rewrite (bind_ok _ _ _ _ _ (bind_ok _ _ _ _ _ E2)).
    reflexivity.
  - unfold st2, st1; simpl; repeat split; eauto.
Qed.

(** A run whose loop finds the worker ended: what the body leaves. *)
Lemma body_ends (w : world) (url : string) (st : state) (pre : list tick)
      (last : tick) (rest : list tick) (code : Z) :
  clean_setup w -> w_ticks w = app pre (last :: rest) ->
  forallb goes_on pre = true -> ends_with last code ->
  exists st',
    run_scraper_body strip w url st = (Ok (Some code), st')
    /\ calls st'
       = app (calls st)
             (files_empty
              :: loop_calls strip (domain url) (fresh_watcher url st) pre)
    /\ event_handler st'
       = Some (wt_self (after_events (app (events_of pre) (tk_events last))
                                     (fresh_watcher url st))).
Proof.
  intros C T G L.
  rewrite (body_clean strip w url st C), T.
  destruct (iterations_go_on (domain url) pre (spawned url st) _
              (spawned_draining url st) eq_refl G)
    as (s1 & E1 & D1 & H1 & O1 & C1).
  change {| wt_self := FileHandler_init (Path.join "out" (domain url));
            wt_stdout := stdout (spawned url st) |}
    with (fresh_watcher url st) in *.
  destruct (iteration_ends (domain url) last rest s1 _ code D1 H1 L)
    as (s2 & E2 & Ho & (p & Hp & Hr) & H2 & C2).
  rewrite O1, watcher_eta, <- after_events_app in H2.
  rewrite E1, E2.
  unfold after_drain, bind, modify, poll; simpl; rewrite Hp, Hr.
  eexists; split; [reflexivity|]; simpl.
  rewrite C2, C1, H2; simpl; rewrite <- app_assoc; auto.
Qed.

Lemma status_lines_app (cs1 cs2 : list call) :
  status_lines (app cs1 cs2) = app (status_lines cs1) (status_lines cs2).
Proof. apply flat_map_app. Qed.

Lemma status_lines_display (dom : string) (files : Dict.t) :
  status_lines (display_calls dom files) = [].
Proof. unfold display_calls; now destruct (Dict.truthy files). Qed.

Lemma status_lines_loop (dom : string) (pre : list tick) (h : watcher) :
  status_lines (loop_calls strip dom h pre) = map strip (lines_read pre).
Proof.
  revert h; induction pre as [|t pre IH]; intros h; [reflexivity|].
  cbn [loop_calls]; rewrite !status_lines_app, status_lines_display, IH.
  unfold lines_read; cbn [flat_map]; rewrite map_app; f_equal.
  unfold line_calls.
  destruct (tk_readline t) as [e|output]; [reflexivity|].
  now destruct (output =? "").
Qed.

(** Events that store nothing leave the mapping as it is. *)
Lemma nothing_stored (ds : list delivery) (h : watcher) :
  Forall (fun d => stored_by d = None) ds ->
  files_content (wt_self (after_events ds h)) = files_content (wt_self h).
Proof.
  revert h; induction ds as [|d ds IH]; intros h F; [reflexivity|].
  inversion F as [|? ? Hd Hds]; subst.
  rewrite after_events_cons, (IH _ Hds).
  destruct (dispatch_effect d h) as (-> & _); now rewrite Hd.
Qed.

Lemma loop_calls_no_file (dom : string) (pre : list tick) (h : watcher) :
  files_content (wt_self h) = Dict.empty ->
  Forall (fun d => stored_by d = None) (events_of pre) ->
  loop_calls strip dom h pre = map status_write (map strip (lines_read pre)).
Proof.
  revert h; induction pre as [|t pre IH]; intros h He F; [reflexivity|].
  unfold events_of in F; cbn [flat_map] in F.
  apply Forall_app in F; destruct F as [Ft F].
  assert (files_content (wt_self (after_events (tk_events t) h)) = Dict.empty)
    as He' by (now rewrite nothing_stored).
  cbn [loop_calls]; rewrite He', (IH _ He' F).
  unfold lines_read, line_calls, display_calls; cbn [flat_map Dict.truthy Dict.empty].
  rewrite !map_app.
  destruct (tk_readline t) as [e|output]; [reflexivity|].
  now destruct (output =? "").
Qed.

End RunMore.

(** X11: when the loop finds the worker ended, [run_scraper] returns its
    code, and the calls it made are: the placeholder, then for each
    iteration before the last the line read, stripped, if it is not empty,
    followed by the bundle and its link if the mapping is not empty; the
    last iteration adds no call, so what the handler stored during it is in
    the mapping but was never displayed. *)
Theorem calls_of_a_run_that_ends (strip : string -> string) (w : world)
        (url : string) (st : state) (pre : list tick) (last : tick)
        (rest : list tick) (code : Z) :
  clean_setup w -> w_ticks w = app pre (last :: rest) ->
  forallb goes_on pre = true -> ends_with last code ->
  let run := run_scraper strip w url st in
  fst run = Ok (Some code)
  /\ calls (snd run)
     = app (calls st)
           (files_empty
            :: loop_calls strip (domain url) (fresh_watcher url st) pre)
  /\ option_map files_content (event_handler (snd run))
     = Some (files_content
               (wt_self (after_events (app (events_of pre) (tk_events last))
                                      (fresh_watcher url st)))).
Proof.
  intros C T G L run.
  destruct (body_ends strip w url st pre last rest code C T G L)
    as (st' & E & Hc & Hh).
  unfold run; rewrite (run_scraper_ok strip w url st st' _ E); simpl.
  rewrite Hc, Hh; auto.
Qed.

(** X12: in a run that ends, the texts written to the status container
    are the non-empty lines read from the worker, stripped, each once and
    in order. *)
Theorem status_shows_every_line (strip : string -> string) (w : world)
        (url : string) (st : state) (pre : list tick) (last : tick)
        (rest : list tick) (code : Z) :
  clean_setup w -> w_ticks w = app pre (last :: rest) ->
  forallb goes_on pre = true -> ends_with last code ->
  status_lines (calls (snd (run_scraper strip w url st)))
  = app (status_lines (calls st)) (map strip (lines_read pre)).
Proof.
  intros C T G L.
  destruct (body_ends strip w url st pre last rest code C T G L)
    as (st' & E & Hc & _).
  rewrite (run_scraper_ok strip w url st st' _ E); simpl.
  rewrite Hc, status_lines_app; f_equal.
  change (files_empty :: ?l) with (app [files_empty] l).
  now rewrite status_lines_app, status_lines_loop.
Qed.

(** X13: in a run that ends during which no event stores a file, no
    bundle and no link are displayed: the calls are the placeholder and the
    status lines, and the code of the worker is returned. *)
Theorem no_file_no_bundle (strip : string -> string) (w : world)
        (url : string) (st : state) (pre : list tick) (last : tick)
        (rest : list tick) (code : Z) :
  clean_setup w -> w_ticks w = app pre (last :: rest) ->
  forallb goes_on pre = true -> ends_with last code ->
  Forall (fun d => stored_by d = None) (events_of pre) ->
  let run := run_scraper strip w url st in
  fst run = Ok (Some code)
  /\ calls (snd run)
     = app (calls st)
           (files_empty :: map status_write (map strip (lines_read pre))).
Proof.
  intros C T G L F run.
  destruct (body_ends strip w url st pre last rest code C T G L)
    as (st' & E & Hc & _).
  unfold run; rewrite (run_scraper_ok strip w url st st' _ E); simpl.
  split; [reflexivity|].
  rewrite Hc; do 2 f_equal.
  now apply loop_calls_no_file.
Qed.

Section Display.

Variable strip : string -> string.

Lemma last_bundle_snoc (cs : list call) (c : call) :
  last_bundle (app cs [c])
  = match c with placeholder_markdown b => Some b | _ => last_bundle cs end.
Proof. unfold last_bundle; now rewrite fold_left_app. Qed.

Lemma last_link_snoc (cs : list call) (c : call) :
  last_link (app cs [c])
  = match c with files_markdown l => Some l | _ => last_link cs end.
Proof. unfold last_link; now rewrite fold_left_app. Qed.

Lemma keeps_bind {A B} (m : M state A) (k : A -> M state B) :
  keeps_in_step m -> (forall a, keeps_in_step (k a)) -> keeps_in_step (bind m k).
Proof.
  intros Hm Hk st I; unfold bind.
  specialize (Hm st I).
  destruct (m st) as [[a|e|] s1]; simpl in *; [now apply Hk|exact Hm|exact Hm].
Qed.

Lemma keeps_ret {A} (a : A) : keeps_in_step (ret a).
Proof. intros st I; exact I. Qed.

Lemma keeps_same_calls {A} (m : M state A) :
  (forall st, calls (snd (m st)) = calls st) -> keeps_in_step m.
Proof. intros H st I; now rewrite H. Qed.

(** A call that is neither a bundle nor a link. *)
Lemma keeps_emit (c : call) :
  match c with placeholder_markdown _ | files_markdown _ => False | _ => True end ->
  keeps_in_step (emit c).
Proof.
  intros Hc st I; unfold in_step in *; simpl.
  rewrite last_bundle_snoc, last_link_snoc.
  destruct c; try exact I; contradiction.
Qed.

Lemma keeps_update_display (dom : string) : keeps_in_step (update_display dom).
Proof.
  intros st I; unfold update_display, bind.
  destruct (event_handler st) as [h|]; [|exact I].
  cbn [ret fst snd].
  destruct (Dict.truthy (files_content h)); [|exact I].
  unfold in_step; simpl.
  rewrite last_bundle_snoc, last_link_snoc, last_bundle_snoc.
  apply downloaded_download_button.
Qed.

Lemma keeps_readline (t : tick) : keeps_in_step (readline t).
Proof.
  apply keeps_same_calls; intros st; unfold readline, bind, modify.
  assert (calls (worker t (observer_thread (tk_events t) st)) = calls st) as E.
  { unfold worker, observer_thread.
    destruct (observer st) as [[]|], (event_handler st); simpl;
      destruct (process st); reflexivity. }
  simpl; destruct (tk_readline t); exact E.
Qed.

Lemma keeps_poll : keeps_in_step poll.
Proof.
  apply keeps_same_calls; intros st; unfold poll.
  destruct (process st) as [p|]; [|reflexivity].
  destruct (returncode p); reflexivity.
Qed.

Lemma keeps_fallible (answer : option exn) : keeps_in_step (fallible answer).
Proof. apply keeps_same_calls; intros st; now destruct answer. Qed.

Lemma keeps_drain (dom : string) (ticks : list tick) :
  keeps_in_step (drain strip dom ticks).
Proof.
  induction ticks as [|t ticks IH]; [intros st I; exact I|].
  cbn [drain]; apply keeps_bind; [apply keeps_readline|intros output].
  apply keeps_bind.
  - destruct (output =? ""); [|apply keeps_ret].
    apply keeps_bind; [apply keeps_poll|intros code; apply keeps_ret].
  - intros [|]; [apply keeps_ret|].
    apply keeps_bind.
    + destruct (output =? ""); [apply keeps_ret|now apply keeps_emit].
    + intros _; apply keeps_bind; [apply keeps_update_display|intros _; exact IH].
Qed.

Lemma keeps_run_scraper (w : world) (url : string) :
  keeps_in_step (run_scraper strip w url).
Proof.
  assert (keeps_in_step (run_scraper_body strip w url)) as B.
  { unfold run_scraper_body; cbv zeta.
    repeat (apply keeps_bind; [|intros _]);
      try apply keeps_fallible; try apply keeps_drain; try apply keeps_poll;
      try (now apply keeps_emit);
      apply keeps_same_calls; intros st; reflexivity. }
  intros st I; unfold run_scraper, try_except.
  specialize (B st I).
  destruct (run_scraper_body strip w url st) as [[r|e|] s1]; simpl in *; try exact B.
  unfold in_step in *; rewrite last_bundle_snoc, last_link_snoc; exact B.
Qed.

End Display.

(** X14: at the end of [main], whatever happened, either no bundle and
    no link were displayed, or the link displayed last decodes to the
    bundle displayed last. *)
Theorem link_matches_bundle (strip : string -> string) (w : world)
        (api_key url : string) (clicked : bool) :
  let cs := calls (snd (main strip w api_key url clicked initial)) in
  match last_bundle cs, last_link cs with
  | Some bundle, Some link => downloaded link = Some bundle
  | None, None => True
  | _, _ => False
  end.
Proof.
  cbv zeta; change (in_step (calls (snd (main strip w api_key url clicked initial)))).
  assert (keeps_in_step (main strip w api_key url clicked)) as K.
  { unfold main.
    destruct (clicked && (negb (api_key =? "") && url_valid url));
      [|apply keeps_ret].
    apply keeps_bind; [now apply keeps_emit|intros _].
    apply keeps_bind; [apply keeps_run_scraper|].
    intros [[| |]|]; now apply keeps_emit. }
  apply K; exact I.
Qed.

Lemma calls_of_a_run_that_ends_witness :
  let run := run_scraper (fun s => s) sample_world "https://example.com" initial in
  fst run = Ok (Some 0%Z)
  /\ status_lines (calls (snd run)) = ["crawling" ++ Str.nl]
  /\ last_bundle (calls (snd run))
     = Some (render [("a.txt", "X"); ("b.txt", "Y")])
  /\ option_map files_content (event_handler (snd run))
     = Some [("b.txt", "Y"); ("a.txt", "X"); ("c.txt", "Z")].
Proof.
  cbv zeta.
  destruct (calls_of_a_run_that_ends (fun s => s) sample_world
              "https://example.com" initial
              (firstn 2 (w_ticks sample_world))
              {| tk_events :=
                   [{| dl_event := {| ev_type := EVENT_TYPE_MODIFIED;
                                      is_directory := false;
                                      src_path := "out/example.com/c.txt" |};
                       dl_read := inr "Z" |}];
                 tk_stderr := []; tk_status := Some 0%Z; tk_readline := inr "" |}
              [] 0%Z)
    as (R & Cs & H); try reflexivity; [repeat split|repeat split|].
  rewrite R, Cs, H; repeat split.
Defined.

Lemma status_shows_every_line_witness :
  status_lines (calls (snd (run_scraper (fun s => s) sample_world
                                        "https://example.com" initial)))
  = ["crawling" ++ Str.nl].
Proof.
  refine (status_shows_every_line (fun s => s) sample_world "https://example.com"
            initial (firstn 2 (w_ticks sample_world)) _ [] 0%Z _ _ _ _);
    try reflexivity; repeat split.
Defined.

Lemma no_file_no_bundle_witness :
  let run := run_scraper (fun s => s) quiet_world "https://example.com" initial in
  fst run = Ok (Some 0%Z)
  /\ calls (snd run) = [files_empty; status_write ("crawling" ++ Str.nl)].
Proof.
  refine (no_file_no_bundle (fun s => s) quiet_world "https://example.com"
            initial (firstn 1 (w_ticks quiet_world)) _ [] 0%Z _ _ _ _ _);
    try reflexivity; repeat split; constructor.
Defined.

Lemma bind_hang {A B : Type} (m : M state A) (k : A -> M state B)
      (st st' : state) :
  m st = (Hang, st') -> bind m k st = (Hang, st').
Proof. unfold bind; now intros ->. Qed.

(** X15: while the worker does not end the loop does not either: if no
    iteration of the script sees the worker ended, [main] has not returned
    when the script is over, and has made no success or failure
    indication, however long the script. *)
Theorem no_exit_no_return (strip : string -> string) (w : world)
        (api_key url : string) :
  api_key <> "" -> url_valid url = true ->
  clean_setup w -> forallb goes_on (w_ticks w) = true ->
  let run := main strip w api_key url true initial in
  fst run = Hang /\ indications (snd run) = [].
Proof.
  intros K V C G run.
  set (st0 := snd (save_env_vars api_key initial)).
  destruct (drain_prefix strip (domain url) (w_ticks w) [] (spawned url st0)
              (spawned_draining url st0) G) as (s1 & E1 & _ & I1).
  rewrite app_nil_r in E1.
  assert (run_scraper strip w url st0 = (Hang, s1)) as E.
  { unfold run_scraper, try_except.
    now rewrite (body_clean strip w url st0 C), E1. }
  unfold run; rewrite (main_started strip w api_key url initial K V).
  rewrite (bind_ok _ _ initial st0 tt eq_refl).
  rewrite (bind_hang _ _ _ _ E); cbn [fst snd].
  split; [reflexivity|].
  rewrite I1, indications_spawned; reflexivity.
Qed.

Lemma no_exit_no_return_witness :
  let w := {| w_makedirs := None; w_schedule := None; w_start := None;
              w_spawn := None;
              w_ticks := repeat {| tk_events := []; tk_stderr := [];
                                   tk_status := None; tk_readline := inr "" |} 50 |} in
  fst (main (fun s => s) w "key" "https://example.com" true initial) = Hang.
Proof.
  cbv zeta.
  refine (proj1 (no_exit_no_return (fun s => s) _ "key" "https://example.com"
                   _ _ _ _));
    [discriminate|reflexivity|repeat split|reflexivity].
Defined.



(** X17: when the loop finds the worker ended, [run_scraper] returns with
    the observer stopped and joined and the return code of the worker
    collected. *)
Theorem normal_end_releases (strip : string -> string) (w : world)
        (url : string) (st : state) (code : Z) :
  worker_exits w code ->
  let run := run_scraper strip w url st in
  fst run = Ok (Some code)
  /\ observer (snd run) = Some ObserverJoined
  /\ observer_held (snd run) = false
  /\ process_held (snd run) = false.
Proof.
  intros X run.
  destruct (body_exits strip w url st code X) as (st' & E & O & P & _).
  unfold run; rewrite (run_scraper_ok strip w url st st' _ E); simpl.
  unfold observer_held; rewrite O; auto.
Qed.

Lemma normal_end_releases_witness :
  let run := run_scraper (fun s => s) sample_world "https://example.com" initial in
  observer_held (snd run) = false /\ process_held (snd run) = false.
Proof.
  cbv zeta.
  destruct (normal_end_releases (fun s => s) sample_world "https://example.com"
              initial 0%Z) as (_ & _ & O & P); [|exact (conj O P)].
  split; [repeat split|].
  exists (firstn 2 (w_ticks sample_world)),
         (nth 2 (w_ticks sample_world)
              {| tk_events := []; tk_stderr := []; tk_status := None;
                 tk_readline := inr "" |}), [].
  repeat split.
Defined.

(** X18: a run in which an exception is raised shows two errors: the one
    of [run_scraper], with the text of the exception, then the one of
    [main]; no success is shown. *)
Theorem failed_run_shows_two_errors (strip : string -> string) (w : world)
        (api_key url : string) (e : exn) :
  api_key <> "" -> url_valid url = true -> fails w e ->
  let run := main strip w api_key url true initial in
  fst run = Ok tt
  /\ indications (snd run)
     = [st_error ("Error running scraper: " ++ str e);
        st_error "❌ There was an error during scraping"].
Proof.
  intros K V F run.
  set (st0 := snd (save_env_vars api_key initial)).
  destruct (body_fails strip w url st0 e F) as (s1 & E & I1 & _).
  apply run_scraper_caught in E.
  unfold run; rewrite (main_started strip w api_key url initial K V).
  rewrite (bind_ok _ _ initial st0 tt eq_refl), (bind_ok _ _ _ _ _ E).
  split; [reflexivity|].
  unfold indications, reported; simpl; rewrite !filter_app.
  fold (indications s1); rewrite I1; reflexivity.
Qed.

Lemma failed_run_shows_two_errors_witness :
  let w := {| w_makedirs := Some (Exception "[Errno 13] Permission denied: 'out'");
              w_schedule := None; w_start := None; w_spawn := None;
              w_ticks := [] |} in
  indications (snd (main (fun s => s) w "key" "https://example.com" true initial))
  = [st_error "Error running scraper: [Errno 13] Permission denied: 'out'";
     st_error "❌ There was an error during scraping"].
Proof.
  cbv zeta.
  refine (proj2 (failed_run_shows_two_errors (fun s => s) _ "key"
                   "https://example.com"
                   (Exception "[Errno 13] Permission denied: 'out'") _ _ _));
    [discriminate|reflexivity|now apply fails_makedirs].
Defined.

Section BundleMore.

Lemma concat_all_app (l1 l2 : list string) :
  concat_all (app l1 l2) = concat_all l1 ++ concat_all l2.
Proof.
  induction l1 as [|x l1 IH]; simpl; [reflexivity|].
  now rewrite IH, append_assoc.
Qed.

Lemma get_some_in (d : Dict.t) (k v : string) : Dict.get d k = Some v -> In (k, v) d.
Proof.
  induction d as [|[k' v'] d IH]; simpl; [discriminate|].
  destruct (String.eqb_spec k' k) as [->|_]; [intros [= ->]; now left|].
  intros H; right; exact (IH H).
Qed.

End BundleMore.

(** X19: the section of every file of the snapshot, its header and its
    content, occurs in the bundle. *)
Theorem every_file_is_in_the_bundle (files : Dict.t) (name content : string) :
  Dict.get files name = Some content ->
  exists before after,
    render files = before ++ section (name, content) ++ after.
Proof.
  intros G; apply get_some_in in G.
  assert (In (name, content) (sorted (Dict.items files))) as H
      by (eapply Permutation_in; [apply ItemSort.Permuted_sort|exact G]).
  apply in_split in H; destruct H as (l1 & l2 & E).
  exists (concat_all (map section l1)), (concat_all (map section l2)).
  unfold render; rewrite fold_sections, E, map_app, concat_all_app.
  reflexivity.
Qed.

Lemma every_file_is_in_the_bundle_witness :
  exists before after,
    render [("b.txt", "Y"); ("a.txt", "X")]
    = before ++ section ("b.txt", "Y") ++ after.
Proof. apply every_file_is_in_the_bundle; reflexivity. Defined.

Section Duplicates.

(** A second assignment to a key replaces the first, in place. *)
Lemma set_set (d : Dict.t) (k v1 v2 : string) :
  Dict.set (Dict.set d k v1) k v2 = Dict.set d k v2.
Proof.
  induction d as [|[k' v'] d IH]; simpl.
  - now rewrite String.eqb_refl.
  - destruct (k' =? k) eqn:E; simpl.
    + now rewrite String.eqb_refl.
    + now rewrite E, IH.
Qed.

(** What two deliveries of one event store: the same key, if anything. *)
Lemma stored_by_same_event (d1 d2 : delivery) (k1 k2 c1 c2 : string) :
  dl_event d1 = dl_event d2 ->
  stored_by d1 = Some (k1, c1) -> stored_by d2 = Some (k2, c2) -> k1 = k2.
Proof.
  unfold stored_by; intros <-.
  destruct (ev_type (dl_event d1)); try discriminate.
  destruct (dl_read d1); [discriminate|].
  destruct (dl_read d2); [discriminate|].
  destruct (qualifies (dl_event d1)); [|discriminate].
  congruence.
Qed.

Lemma stored_by_nothing (d1 d2 : delivery) (content : string) :
  dl_event d1 = dl_event d2 -> dl_read d2 = inr content ->
  stored_by d2 = None -> stored_by d1 = None.
Proof.
  unfold stored_by; intros <- ->.
  destruct (ev_type (dl_event d1)), (dl_read d1), (qualifies (dl_event d1));
    try reflexivity; discriminate.
Qed.

Lemma stored_by_read_fails (d : delivery) (e : exn) :
  dl_read d = inl e -> stored_by d = None.
Proof.
  unfold stored_by; intros ->; now destruct (ev_type (dl_event d)).
Qed.

Lemma files_after_two (d1 d2 : delivery) (w : watcher) :
  files_content (wt_self (after_events [d1; d2] w))
  = match stored_by d2 with
    | Some (k, c) =>
        Dict.set (files_content (wt_self (after_events [d1] w))) k c
    | None => files_content (wt_self (after_events [d1] w))
    end.
Proof.
  rewrite !after_events_cons.
  change (after_events [] ?x) with x.
  now destruct (dispatch_effect d2 (snd (dispatch d1 w))) as (-> & _).
Qed.

End Duplicates.

(** X20: when one event is delivered twice in a row, the file is read at
    each delivery and the second read decides: if it succeeds, the mapping
    is what the second delivery alone would have left; if it fails, the
    mapping is what the first delivery left; and if both reads yield the
    same, the second delivery changes nothing. *)
Theorem repeated_event_keeps_last_read (ds : list delivery) (d1 d2 : delivery)
        (w : watcher) :
  dl_event d1 = dl_event d2 ->
  (forall content,
     dl_read d2 = inr content ->
     files_content (wt_self (after_events (app ds [d1; d2]) w))
     = files_content (wt_self (after_events (app ds [d2]) w)))
  /\ (forall e,
        dl_read d2 = inl e ->
        files_content (wt_self (after_events (app ds [d1; d2]) w))
        = files_content (wt_self (after_events (app ds [d1]) w)))
  /\ (dl_read d1 = dl_read d2 ->
      files_content (wt_self (after_events (app ds [d1; d2]) w))
      = files_content (wt_self (after_events (app ds [d1]) w))).
Proof.
  intros Ev.
  assert (forall w0,
            files_content (wt_self (after_events [d1] w0))
            = match stored_by d1 with
              | Some (k, c) => Dict.set (files_content (wt_self w0)) k c
              | None => files_content (wt_self w0)
              end) as One.
  { intros w0; rewrite after_events_cons.
    change (after_events [] ?x) with x.
    now destruct (dispatch_effect d1 w0) as (-> & _). }
  assert (forall w0,
            files_content (wt_self (after_events [d2] w0))
            = match stored_by d2 with
              | Some (k, c) => Dict.set (files_content (wt_self w0)) k c
              | None => files_content (wt_self w0)
              end) as Two.
  { intros w0; rewrite after_events_cons.
    change (after_events [] ?x) with x.
    now destruct (dispatch_effect d2 w0) as (-> & _). }
  rewrite !after_events_app.
  set (w0 := after_events ds w).
  split; [|split].
  - intros content R.
    rewrite files_after_two, Two, One.
    destruct (stored_by d2) as [[k2 c2]|] eqn:S2.
    + destruct (stored_by d1) as [[k1 c1]|] eqn:S1; [|reflexivity].
      rewrite (stored_by_same_event d1 d2 k1 k2 c1 c2 Ev S1 S2).
      apply set_set.
    + now rewrite (stored_by_nothing d1 d2 content Ev R S2).
  - intros e R.
    now rewrite files_after_two, (stored_by_read_fails d2 e R).
  - intros R.
    rewrite files_after_two, One.
    assert (stored_by d2 = stored_by d1) as ->
        by (unfold stored_by; now rewrite Ev, R).
    destruct (stored_by d1) as [[k c]|]; [apply set_set|reflexivity].
Qed.

Lemma repeated_event_keeps_last_read_witness :
  let modified text :=
    {| dl_event := {| ev_type := EVENT_TYPE_MODIFIED; is_directory := false;
                      src_path := "out/example.com/a.txt" |};
       dl_read := inr text |} in
  let w := {| wt_self := FileHandler_init "out/example.com"; wt_stdout := [] |} in
  files_content (wt_self (after_events [modified "X"; modified "XY"] w))
  = [("a.txt", "XY")].
Proof.
  cbv zeta.
  refine (eq_trans (proj1 (repeated_event_keeps_last_read [] _ _ _ _) "XY" _) _);
    reflexivity.
Defined.
